(** * UmaNakama: recognition and matching engine

    A shallow embedding of the portrait gating of [src/ocr/reader.py]
    ([read_once], [reset_portrait_gating], [trim_after_big_gap]), of the
    event catalog and fuzzy matcher of [src/core/events.py]
    ([load_events], [find_best_match]) and of the template store of
    [src/services/portraits.py] ([load_portraits], [detect_from_roi],
    [save_portrait]).

    Modelling conventions.
    - Python [str] values are Rocq [string]s (ASCII); [str.lower],
      [str.strip] and [str.isspace] are written out on the ASCII range.
      [trim_after_big_gap] is modelled on lists of Unicode code points.
    - A collaborator called inside the [try] of [read_once] may raise; the
      tick then goes on from the state reached before the call.
    - [time.time()] timestamps are [Z] milliseconds, so the cooldown of
      [PROMPT_COOLDOWN_SEC = 15.0] seconds is 15000.
    - Python floats used as similarity scores and cutoffs are [Q].
    - Python dicts are association lists in insertion order. *)

From Stdlib Require Import Bool List ZArith QArith String Ascii Lia.
Import ListNotations.
Open Scope string_scope.

(* ------------------------------------------------------------------ *)
(** ** Python string helpers (ASCII range) *)

Module Py.

(** [c.isspace()] on ASCII: tab, LF, VT, FF, CR, the separators
    0x1c-0x1f and space. *)
Definition isspace (c : ascii) : bool :=
  let n := nat_of_ascii c in
  (Nat.leb 9 n && Nat.leb n 13) || (Nat.leb 28 n && Nat.leb n 32).

(** [c.lower()] on ASCII. *)
Definition lower_char (c : ascii) : ascii :=
  let n := nat_of_ascii c in
  if Nat.leb 65 n && Nat.leb n 90 then ascii_of_nat (n + 32) else c.

Fixpoint lower (s : string) : string :=
  match s with
  | EmptyString => EmptyString
  | String c t => String (lower_char c) (lower t)
  end.

(** [needle in hay] for strings. *)
Fixpoint contains (needle hay : string) : bool :=
  prefix needle hay ||
  match hay with
  | EmptyString => false
  | String _ t => contains needle t
  end.

Fixpoint lstrip (s : string) : string :=
  match s with
  | EmptyString => EmptyString
  | String c t => if isspace c then lstrip t else s
  end.

(** [s.rstrip()]: drop the trailing whitespace. *)
Fixpoint rstrip (s : string) : string :=
  match s with
  | EmptyString => EmptyString
  | String c t =>
      match rstrip t with
      | EmptyString => if isspace c then EmptyString else String c EmptyString
      | t' => String c t'
      end
  end.

Definition strip (s : string) : string := rstrip (lstrip s).

(** Truthiness of an [Optional[str]]: [None] and [""] are false. *)
Definition truthy (o : option string) : option string :=
  match o with
  | Some EmptyString => None
  | _ => o
  end.

Definition opt_eqb (a b : option string) : bool :=
  match a, b with
  | None, None => true
  | Some x, Some y => String.eqb x y
  | _, _ => false
  end.

End Py.

(* ------------------------------------------------------------------ *)
(** ** [src/ocr/reader.py] *)

Module Reader.

(** Python [str] values as lists of code points. A Rocq [string] (the
    ASCII convention of this file) maps to the code points 0-255. *)
Definition code_points (s : string) : list Z :=
  map (fun c => Z.of_nat (nat_of_ascii c)) (list_ascii_of_string s).

Definition of_code_points (l : list Z) : string :=
  string_of_list_ascii (map (fun z => ascii_of_nat (Z.to_nat z)) l).

(** [c.isspace()], the whitespace [str.rstrip()] removes: 0x09-0x0d,
    0x1c-0x20, 0x85, 0xa0, 0x1680, 0x2000-0x200a, 0x2028, 0x2029, 0x202f,
    0x205f and 0x3000. *)
Definition isspace_cp (c : Z) : bool :=
  (((9 <=? c) && (c <=? 13)) || ((28 <=? c) && (c <=? 32)) ||
   (c =? 133) || (c =? 160) || (c =? 5760) || ((8192 <=? c) && (c <=? 8202)) ||
   (c =? 8232) || (c =? 8233) || (c =? 8239) || (c =? 8287) || (c =? 12288))%Z.

(** [_SPACE_LIKE_CLASS]: space, tab, 0xa0, 0x1680, 0x2000-0x200a, 0x202f,
    0x205f and 0x3000. *)
Definition space_like (c : Z) : bool :=
  ((c =? 32) || (c =? 9) || (c =? 160) || (c =? 5760) ||
   ((8192 <=? c) && (c <=? 8202)) || (c =? 8239) || (c =? 8287) || (c =? 12288))%Z.

(** Do [n] space-like characters start here? *)
Fixpoint run_at (n : nat) (s : list Z) : bool :=
  match n with
  | O => true
  | S n' =>
      match s with
      | [] => false
      | c :: t => space_like c && run_at n' t
      end
  end.

(** [.*] taken greedily ([.] matches everything but a newline): what is
    left after it, the text from the first newline on. *)
Fixpoint dot_star (t : list Z) : list Z :=
  match t with
  | [] => []
  | c :: t' => if (c =? 10)%Z then t else dot_star t'
  end.

(** [$] without MULTILINE: at the end, or before a final newline. *)
Definition dollar (t : list Z) : bool :=
  match t with
  | [] => true
  | [c] => (c =? 10)%Z
  | _ => false
  end.

(** Does [[space-like]{n,}.*$] match at the start of [s]? A longer run
    only moves characters from the run to [.*], and backtracking [.*]
    never helps: [$] holds at no position before the first newline but
    the end. *)
Definition match_at (n : nat) (s : list Z) : bool :=
  run_at n s && dollar (dot_star (skipn n s)).

(** [pattern.sub("", s)]: the leftmost match is deleted; what follows it is
    [[]] or a final newline, where the pattern can only match the empty
    string, whose replacement by [""] changes nothing. *)
Fixpoint sub_gap (min_run : nat) (s : list Z) : list Z :=
  match s with
  | [] => []
  | c :: t =>
      if match_at min_run s then dot_star (skipn min_run s)
      else c :: sub_gap min_run t
  end.

(** [s.rstrip()]. *)
Fixpoint rstrip_cp (s : list Z) : list Z :=
  match s with
  | [] => []
  | c :: t =>
      match rstrip_cp t with
      | [] => if isspace_cp c then [] else [c]
      | t' => c :: t'
      end
  end.

(** [trim_after_big_gap] on code points: U+200B and U+FEFF are dropped
    (in this order), the pattern is substituted, the rest right-stripped. *)
Definition trim_after_big_gap_cp (s : list Z) (min_run : nat) : list Z :=
  match s with
  | [] => s
  | _ =>
      let s1 := filter (fun c => negb (c =? 8203)%Z) s in
      let s2 := filter (fun c => negb (c =? 65279)%Z) s1 in
      rstrip_cp (sub_gap min_run s2)
  end.

(** [trim_after_big_gap] on a Rocq [string]. *)
Definition trim_after_big_gap (s : string) (min_run : nat) : string :=
  of_code_points (trim_after_big_gap_cp (code_points s) min_run).

Definition PORTRAIT_REQUIRE_HITS : nat := 2.
Definition PORTRAIT_REQUIRE_MISSES : nat := 2.
(** [PROMPT_COOLDOWN_SEC = 15.0], in milliseconds. *)
Definition PROMPT_COOLDOWN_MS : Z := 15000.

(** The module-level streak trackers. *)
Record GateState := mkGate {
  current_candidate : option string;   (* _current_candidate *)
  candidate_hits : nat;                (* _candidate_hits *)
  consecutive_misses : nat;            (* _consecutive_misses *)
  last_key : string;                   (* _last_key *)
  last_prompt_time : Z                 (* _last_prompt_time *)
}.

(** Module load: [None, 0, 0, "", 0.0]. *)
Definition initial_gate : GateState := mkGate None 0 0 "" 0.

(** [reset_portrait_gating]: [_last_prompt_time] is not touched. *)
Definition reset_portrait_gating (g : GateState) : GateState :=
  mkGate None 0 0 "" (last_prompt_time g).

(** What a call inside the [try] of lines 163-221 does: return a value,
    or raise an [Exception], which the [except] of line 220 swallows. *)
Inductive Answer (A : Type) :=
| Returns (a : A)
| Raises.
Arguments Returns {A} a.
Arguments Raises {A}.

(** What one tick receives from its collaborators: the OCR lines after
    the post-processing of lines 141-146; the outcome of lines 165-169
    ([get_char_region], the screenshot, the threshold from [config] and
    [detect_from_roi], whose name it carries); the value of [time.time()];
    the outcome of lines 204-206 ([get_trainee_names], [pil_to_qimage],
    [prompt_character_from_worker], whose answer it carries); and the
    outcome of [save_portrait] at line 209. The prompt and the save are
    consulted only when the code reaches them. *)
Record Tick := mkTick {
  tick_lines : list string;
  tick_detect : Answer (option string);
  tick_now : Z;
  tick_selected : Answer (option string);
  tick_save : Answer unit
}.

(** The name the identifier returned on this tick, if it returned a truthy
    one. *)
Definition identified (t : Tick) : option string :=
  match tick_detect t with
  | Returns o => Py.truthy o
  | Raises => None
  end.

(** Where the tick goes after the gating: [hide_all] and return, or on to
    the event matching of lines 230-263, which calls
    [find_best_match event_line category character_name=detected_char]. *)
Inductive Outcome :=
| HideAll
| Match (category : string) (event_line : string) (detected_char : option string).

Record TickResult := mkResult {
  next_gate : GateState;
  outcome : Outcome;
  prompted : bool;             (* the prompt branch of line 200 was taken *)
  saved : option string        (* save_portrait(selected, ...) was called *)
}.

(** The hit branch (lines 172-187). *)
Definition on_hit (g : GateState) (name event_key : string)
  : GateState * option string :=
  let '(cand, hits) :=
    if Py.opt_eqb (current_candidate g) (Some name)
    then (current_candidate g, S (candidate_hits g))
    else (Some name, 1%nat) in
  if (PORTRAIT_REQUIRE_HITS <=? hits)%nat
  then (mkGate cand hits 0 event_key (last_prompt_time g), cand)
  else (mkGate cand hits (consecutive_misses g) (last_key g) (last_prompt_time g), None).

(** The miss counter update on a "Trainee Event" line (lines 192-196). *)
Definition count_miss (g : GateState) (event_key : string) : GateState :=
  if negb (String.eqb event_key (last_key g))
  then mkGate (current_candidate g) (candidate_hits g) 1 event_key (last_prompt_time g)
  else mkGate (current_candidate g) (candidate_hits g) (S (consecutive_misses g))
         (last_key g) (last_prompt_time g).

(** The miss branch on a "Trainee Event" line (lines 191-213): returns the
    new state, [detected_char], whether the prompt branch was taken and
    what [save_portrait] was called with. A raise in lines 204-206 leaves
    the state of line 201; a raise in [save_portrait] comes after
    [detected_char = selected] and before the counters are cleared. *)
Definition on_miss (g : GateState) (event_key : string) (now : Z)
  (selected : Answer (option string)) (save : Answer unit)
  : GateState * option string * bool * option string :=
  let g1 := count_miss g event_key in
  if (PORTRAIT_REQUIRE_MISSES <=? consecutive_misses g1)%nat
     && (PROMPT_COOLDOWN_MS <? now - last_prompt_time g1)%Z
  then
    let g2 := mkGate (current_candidate g1) (candidate_hits g1)
                (consecutive_misses g1) (last_key g1) now in
    match selected with
    | Raises => (g2, None, true, None)
    | Returns sel_opt =>
        match Py.truthy sel_opt with
        | Some sel =>
            match save with
            | Returns _ =>
                (mkGate None 0 0 (last_key g2) (last_prompt_time g2), Some sel, true, Some sel)
            | Raises => (g2, Some sel, true, Some sel)
            end
        | None => (g2, None, true, None)
        end
    end
  else (g1, None, false, None).

(** [read_once] up to the event matching (lines 150-228). A raise in
    lines 165-169 leaves the state as it was and [detected_char = None]. *)
Definition read_once (g : GateState) (t : Tick) : TickResult :=
  match tick_lines t with
  | l0 :: l1 :: _ =>
      let category_line := Py.lower l0 in
      let event_line := trim_after_big_gap l1 4 in
      if Py.contains "trainee" category_line then
        let is_trainee_event_line := Py.contains "trainee event" (Py.lower l0) in
        match tick_detect t with
        | Raises => mkResult g (Match "trainee" event_line None) false None
        | Returns detected =>
            let event_key := "trainee|" ++ event_line in
            match Py.truthy detected with
            | Some name =>
                let '(g', det) := on_hit g name event_key in
                mkResult g' (Match "trainee" event_line det) false None
            | None =>
                if is_trainee_event_line then
                  let '(g', det, pr, sv) :=
                    on_miss g event_key (tick_now t) (tick_selected t) (tick_save t) in
                  mkResult g' (Match "trainee" event_line det) pr sv
                else mkResult (reset_portrait_gating g) (Match "trainee" event_line None) false None
            end
        end
      else if Py.contains "support" category_line then
        mkResult (reset_portrait_gating g) (Match "support" event_line None) false None
      else mkResult g HideAll false None
  | _ => mkResult g HideAll false None
  end.

(** The tick loop: the final state and every tick's result. *)
Fixpoint run (g : GateState) (ts : list Tick) : GateState * list TickResult :=
  match ts with
  | [] => (g, [])
  | t :: ts' =>
      let r := read_once g t in
      let '(gf, rs) := run (next_gate r) ts' in
      (gf, r :: rs)
  end.

Definition detected_of (r : TickResult) : option string :=
  match outcome r with
  | Match _ _ d => d
  | HideAll => None
  end.

(** The times at which the prompt branch is taken along a tick loop. *)
Fixpoint prompt_times (g : GateState) (ts : list Tick) : list Z :=
  match ts with
  | [] => []
  | t :: ts' =>
      let r := read_once g t in
      (if prompted r then [tick_now t] else []) ++ prompt_times (next_gate r) ts'
  end.

(** Each time lies more than the cooldown after the previous one (the
    first, after [p]). *)
Fixpoint gaps_above (p : Z) (l : list Z) : Prop :=
  match l with
  | [] => True
  | x :: l' => (p + PROMPT_COOLDOWN_MS < x)%Z /\ gaps_above x l'
  end.

End Reader.

(* ------------------------------------------------------------------ *)
(** ** Python runtime pieces shared by [events.py] and [portraits.py] *)

Module Rt.

(** The exceptions the modelled calls can raise. All but
    [KeyboardInterrupt] derive from [Exception]. *)
Inductive Exc :=
| FileNotFoundError
| PermissionError
| IsADirectoryError
| UnicodeDecodeError
| JSONDecodeError
| RecursionError
| MemoryError
| ValueError
| KeyError
| KeyboardInterrupt.

Definition is_Exception (e : Exc) : bool :=
  match e with
  | KeyboardInterrupt => false
  | _ => true
  end.

Inductive PyResult (A : Type) :=
| Ok (a : A)
| Raised (e : Exc).
Arguments Ok {A} a.
Arguments Raised {A} e.

Definition bind {A B} (m : PyResult A) (f : A -> PyResult B) : PyResult B :=
  match m with
  | Ok a => f a
  | Raised e => Raised e
  end.

(** [d.get(k)] on a dict kept as an association list. *)
Fixpoint dict_get {A} (k : string) (d : list (string * A)) : option A :=
  match d with
  | [] => None
  | (k', v) :: d' => if String.eqb k k' then Some v else dict_get k d'
  end.

(** [d[k] = v]: an existing key keeps its position, a new one goes last. *)
Fixpoint dict_set {A} (k : string) (v : A) (d : list (string * A)) : list (string * A) :=
  match d with
  | [] => [(k, v)]
  | (k', v') :: d' =>
      if String.eqb k k' then (k', v) :: d' else (k', v') :: dict_set k v d'
  end.

Definition ends_with_slash (s : string) : bool :=
  match String.get (String.length s - 1) s with
  | Some c => Ascii.eqb c "/"%char
  | None => false
  end.

(** [posixpath.join(a, b)]. *)
Definition os_path_join (a b : string) : string :=
  if prefix "/" b then b
  else if String.eqb a "" || ends_with_slash a then a ++ b
  else a ++ "/" ++ b.

End Rt.

Import Rt.

(* ------------------------------------------------------------------ *)
(** ** [src/core/events.py] *)

Module Events.

(** [{ option_label -> effect_text }] and [{ event_name -> options }]. *)
Definition EventOptions := list (string * string).
Definition EventMap := list (string * EventOptions).

(** [load_events]: [open(filename)] + read as UTF-8 is [read_text], and
    [json.load] is [json_loads] (both may raise). *)
Definition load_events (read_text : string -> PyResult string)
  (json_loads : string -> PyResult EventMap)
  (category base_dir : string) : PyResult EventMap :=
  let filename := os_path_join base_dir (category ++ "_events.json") in
  let attempt := bind (read_text filename) json_loads in
  match attempt with
  | Ok data => Ok data
  | Raised e => if is_Exception e then Ok [] else Raised e
  end.

(** The read failures [load_events] meets: a missing file, a path that
    cannot be opened or read, bytes that are not UTF-8. *)
Inductive read_failure : Exc -> Prop :=
| rf_missing : read_failure FileNotFoundError
| rf_permission : read_failure PermissionError
| rf_directory : read_failure IsADirectoryError
| rf_decode : read_failure UnicodeDecodeError.

(** The parse failures of [json.load]: malformed JSON, or nesting too deep. *)
Inductive parse_failure : Exc -> Prop :=
| pf_json : parse_failure JSONDecodeError
| pf_depth : parse_failure RecursionError.

Definition AMBIGUOUS : list string := ["inspiration"; "summer camp"].
Definition AMBIGUOUS_CUTOFF : Q := 95 # 100.

Section Matcher.

(** [difflib.SequenceMatcher] with [seq1 = x] (a candidate) and
    [seq2 = word] (the event line): its three scores. *)
Variables real_quick_ratio quick_ratio ratio : string -> string -> Q.

(** [(s1, x1) > (s2, x2)] on [(score, string)] tuples. *)
Definition tuple_gt (a b : Q * string) : bool :=
  negb (Qle_bool (fst a) (fst b))
  || (Qeq_bool (fst a) (fst b)
      && match String.compare (snd a) (snd b) with Gt => true | _ => false end).

(** [max(it, default=sentinel)]: the first maximal element. *)
Definition py_max (l : list (Q * string)) : option (Q * string) :=
  fold_left (fun acc y =>
               match acc with
               | None => Some y
               | Some m => if tuple_gt y m then Some y else Some m
               end) l None.

(** [difflib.get_close_matches(word, possibilities, n=1, cutoff)]. *)
Definition get_close_matches (word : string) (possibilities : list string)
  (cutoff : Q) : PyResult (list string) :=
  if negb (Qle_bool 0 cutoff && Qle_bool cutoff 1) then Raised ValueError
  else
    let result :=
      map (fun x => (ratio x word, x))
        (filter (fun x => Qle_bool cutoff (real_quick_ratio x word)
                          && Qle_bool cutoff (quick_ratio x word)
                          && Qle_bool cutoff (ratio x word)) possibilities) in
    match py_max result with
    | None => Ok []
    | Some (_, x) => Ok [x]
    end.

(** Lines 129-141: the candidate map. [by_char] is the value
    [load_events_by_char(base_dir)] returns; [load] is [load_events]. *)
Definition candidates_for (load : string -> PyResult EventMap)
  (by_char : list (string * EventMap)) (category : string)
  (character_name : option string) : PyResult EventMap :=
  if String.eqb category "trainee" then
    let candidates_map :=
      match Py.truthy character_name with
      | Some name =>
          match dict_get name by_char with
          | Some (_ :: _) as m => m
          | _ => dict_get (Py.strip name) by_char
          end
      | None => None
      end in
    match candidates_map with
    | Some m => Ok m
    | None => load "trainee"
    end
  else load category.

(** Lines 148-151: the effective cutoff. *)
Definition effective_cutoff (event_line : string) (confidence : Q) : Q :=
  if existsb (fun s => Py.contains s (Py.lower event_line)) AMBIGUOUS
  then (if Qle_bool AMBIGUOUS_CUTOFF confidence then confidence else AMBIGUOUS_CUTOFF)
  else confidence.

(** Lines 143-157: match within a candidate map. *)
Definition match_in (event_line : string) (confidence : Q)
  (candidates_map : EventMap) : PyResult (option string * option EventOptions) :=
  match candidates_map with
  | [] => Ok (None, None)
  | _ =>
      let candidates := map fst candidates_map in
      let cutoff := effective_cutoff event_line confidence in
      bind (get_close_matches event_line candidates cutoff) (fun matches =>
        match matches with
        | name :: _ =>
            match dict_get name candidates_map with
            | Some opts => Ok (Some name, Some opts)
            | None => Raised KeyError
            end
        | [] => Ok (None, None)
        end)
  end.

(** [find_best_match]. *)
Definition find_best_match (load : string -> PyResult EventMap)
  (by_char : list (string * EventMap)) (event_line category : string)
  (character_name : option string) (confidence : Q)
  : PyResult (option string * option EventOptions) :=
  if Nat.ltb (String.length event_line) 4 then Ok (None, None)
  else bind (candidates_for load by_char category character_name)
              (match_in event_line confidence).

End Matcher.

End Events.

(* ------------------------------------------------------------------ *)
(** ** [src/services/portraits.py] *)

Module Portraits.

(** [posixpath.splitext] of a file name (no separator in it): split at
    the last dot unless only dots precede it. *)
Fixpoint last_dot_aux (i : nat) (s : string) (acc : option nat) : option nat :=
  match s with
  | EmptyString => acc
  | String c t => last_dot_aux (S i) t (if Ascii.eqb c "."%char then Some i else acc)
  end.

Definition splitext (p : string) : string * string :=
  match last_dot_aux 0 p None with
  | Some d =>
      if existsb (fun c => negb (Ascii.eqb c "."%char))
           (list_ascii_of_string (substring 0 d p))
      then (substring 0 d p, substring d (String.length p - d) p)
      else (p, "")
  | None => (p, "")
  end.

(** The characters [save_portrait] removes: backslash, slash, colon,
    star, question mark, double quote, less-than, greater-than, bar. *)
Definition FORBIDDEN : list ascii :=
  map ascii_of_nat [92; 47; 58; 42; 63; 34; 60; 62; 124]%nat.

Definition keep_allowed (s : string) : string :=
  string_of_list_ascii
    (filter (fun ch => negb (existsb (Ascii.eqb ch) FORBIDDEN))
       (list_ascii_of_string s)).

(** [safe] in [save_portrait]. *)
Definition sanitize (name : string) : string :=
  Py.strip (keep_allowed (Py.strip name)).

Section Store.

(** [PIL.Image.Image] values and OpenCV grayscale arrays. *)
Variables PilImage Gray : Type.
(** [cv2.cvtColor(np.array(img), cv2.COLOR_RGB2GRAY)]. *)
Variable rgb2gray : PilImage -> Gray.
(** [cv2.imread(path, cv2.IMREAD_GRAYSCALE)] of a stored image file. *)
Variable imread_gray : PilImage -> option Gray.
(** [cv2.equalizeHist]. *)
Variable equalize_hist : Gray -> Gray.
(** Lines 146-158 for one template: upscale the ROI if needed, then
    [cv2.matchTemplate(..., TM_CCOEFF_NORMED)] and the [max_val] of
    [cv2.minMaxLoc]. *)
Variable match_max : Gray -> Gray -> Q.

(** The portrait directory: whether it exists, and its files in
    [os.listdir] order, by file name. *)
Record Disk := mkDisk {
  dir_exists : bool;
  entries : list (string * PilImage)
}.

(** The disk and the global [portrait_templates] cache. *)
Record Store := mkStore {
  disk : Disk;
  portrait_templates : list (string * Gray)
}.

(** [ensure_dirs]: [os.makedirs(portrait_dir, exist_ok=True)]. *)
Definition ensure_dirs (st : Store) : Store :=
  mkStore (mkDisk true (entries (disk st))) (portrait_templates st).

Definition IMAGE_EXTS : list string := [".png"; ".jpg"; ".jpeg"].

(** The scan loop of [load_portraits]. *)
Definition scan (es : list (string * PilImage)) : list (string * Gray) :=
  fold_left (fun loaded '(fname, img) =>
      let '(name, ext) := splitext fname in
      if negb (existsb (String.eqb (Py.lower ext)) IMAGE_EXTS) then loaded
      else match imread_gray img with
           | Some g => dict_set name g loaded
           | None => loaded
           end) es [].

(** [load_portraits]: the cache is replaced by the scan. *)
Definition load_portraits (st : Store) : Store * list (string * Gray) :=
  let st1 := ensure_dirs st in
  let loaded := scan (entries (disk st1)) in
  (mkStore (disk st1) loaded, loaded).

(** Observable steps of [detect_from_roi]: a reload from disk, and the
    scoring of one template. *)
Inductive Step := Reload | Scored (name : string).

(** The [for name, templ in templates.items()] loop. *)
Definition best_of (roi : Gray) (templates : list (string * Gray))
  : option string * Q :=
  fold_left (fun '(best_name, best_score) '(name, templ) =>
      let max_val := match_max roi templ in
      if negb (Qle_bool max_val best_score) then (Some name, max_val)
      else (best_name, best_score)) templates (None, -1).

(** [detect_from_roi]: new store, the steps taken, and [(name, score)]. *)
Definition detect_from_roi (st : Store) (pil_img : PilImage) (min_score : Q)
  : Store * list Step * (option string * Q) :=
  let '(st1, steps) :=
    match portrait_templates st with
    | [] => (fst (load_portraits st), [Reload])
    | _ => (st, [])
    end in
  match portrait_templates st1 with
  | [] => (st1, steps, (None, 0))
  | templates =>
      let roi := equalize_hist (rgb2gray pil_img) in
      let '(best_name, best_score) := best_of roi templates in
      (st1, app steps (map (fun '(name, _) => Scored name) templates),
       if Qle_bool min_score best_score then (best_name, best_score)
       else (None, best_score))
  end.

(** [pil_img.save(path)] inside the portrait directory. *)
Definition write_file (d : Disk) (fname : string) (img : PilImage) : Disk :=
  mkDisk (dir_exists d) (dict_set fname img (entries d)).

(** [save_portrait]: the new store and the returned path. *)
Definition save_portrait (st : Store) (name : string) (pil_img : PilImage)
  (portrait_dir : string) : Store * option string :=
  let st1 := ensure_dirs st in
  let safe := sanitize name in
  if String.eqb safe "" then (st1, None)
  else
    let fname := safe ++ ".png" in
    let path := os_path_join portrait_dir fname in
    let d := write_file (disk st1) fname pil_img in
    (mkStore d (dict_set safe (rgb2gray pil_img) (portrait_templates st1)), Some path).

End Store.

Arguments mkDisk {PilImage} _ _.
Arguments dir_exists {PilImage} _.
Arguments entries {PilImage} _.
Arguments mkStore {PilImage Gray} _ _.
Arguments disk {PilImage Gray} _.
Arguments portrait_templates {PilImage Gray} _.
Arguments ensure_dirs {PilImage Gray} _.
Arguments scan {PilImage Gray} _ _.
Arguments load_portraits {PilImage Gray} _ _.
Arguments best_of {Gray} _ _ _.
Arguments detect_from_roi {PilImage Gray} _ _ _ _ _ _ _.
Arguments write_file {PilImage} _ _ _.
Arguments save_portrait {PilImage Gray} _ _ _ _ _.

End Portraits.

(* ------------------------------------------------------------------ *)
(** ** [load_events_by_char] ([src/core/events.py]) *)

Module ByChar.
Import Events.

(** [{ character_name -> events_map }]. *)
Definition ByCharMap := list (string * EventMap).

(** The cache key [(base_dir, filenames)]. *)
Definition CacheKey := (string * list string)%type.

Fixpoint strings_eqb (a b : list string) : bool :=
  match a, b with
  | [], [] => true
  | x :: a', y :: b' => String.eqb x y && strings_eqb a' b'
  | _, _ => false
  end.

Definition key_eqb (a b : CacheKey) : bool :=
  String.eqb (fst a) (fst b) && strings_eqb (snd a) (snd b).

(** [_events_by_char_cache], a dict kept as an association list. *)
Definition Cache := list (CacheKey * ByCharMap).

Fixpoint cache_get (k : CacheKey) (c : Cache) : option ByCharMap :=
  match c with
  | [] => None
  | (k', v) :: c' => if key_eqb k k' then Some v else cache_get k c'
  end.

Fixpoint cache_set (k : CacheKey) (v : ByCharMap) (c : Cache) : Cache :=
  match c with
  | [] => [(k, v)]
  | (k', v') :: c' =>
      if key_eqb k k' then (k', v) :: c' else (k', v') :: cache_set k v c'
  end.

(** The loop over [filenames] (lines 52-66): [isfile] is
    [os.path.isfile], [read_text] the [open] + UTF-8 read and [json_loads]
    [json.load]. The [print] calls are taken not to raise. *)
Fixpoint try_files (isfile : string -> bool)
  (read_text : string -> PyResult string)
  (json_loads : string -> PyResult ByCharMap)
  (key : CacheKey) (cache : Cache) (base_dir : string) (fs : list string)
  : PyResult (Cache * ByCharMap) :=
  match fs with
  | [] => Ok (cache_set key [] cache, [])
  | fname :: fs' =>
      let path := os_path_join base_dir fname in
      if isfile path then
        match bind (read_text path) json_loads with
        | Ok data => Ok (cache_set key data cache, data)
        | Raised e =>
            if is_Exception e
            then try_files isfile read_text json_loads key cache base_dir fs'
            else Raised e
        end
      else try_files isfile read_text json_loads key cache base_dir fs'
  end.

(** [load_events_by_char(base_dir, filenames)]: returns the new cache and
    the value. *)
Definition load_events_by_char (isfile : string -> bool)
  (read_text : string -> PyResult string)
  (json_loads : string -> PyResult ByCharMap)
  (cache : Cache) (base_dir : string) (filenames : list string)
  : PyResult (Cache * ByCharMap) :=
  let cache_key := (base_dir, filenames) in
  match cache_get cache_key cache with
  | Some d => Ok (cache, d)
  | None => try_files isfile read_text json_loads cache_key cache base_dir filenames
  end.

End ByChar.

(* ------------------------------------------------------------------ *)
(** ** [read_once]: the OCR lines and the overlay ([src/ocr/reader.py]) *)

Module Overlay.
Import Events.

(** The line boundaries of [str.splitlines] in ASCII: LF, VT, FF, CR and
    the separators 0x1c-0x1e. *)
Definition is_line_break (c : ascii) : bool :=
  let n := nat_of_ascii c in
  (Nat.leb 10 n && Nat.leb n 13) || (Nat.leb 28 n && Nat.leb n 30).

(** [str.splitlines()]: [cur] holds the current line, reversed. CR LF is
    one boundary; no empty line is produced after a final boundary. *)
Fixpoint splitlines_go (cur : list ascii) (s : string) : list string :=
  match s with
  | EmptyString =>
      match cur with
      | [] => []
      | _ => [string_of_list_ascii (rev cur)]
      end
  | String c t =>
      if is_line_break c then
        string_of_list_ascii (rev cur) ::
          (if Nat.eqb (nat_of_ascii c) 13 then
             match t with
             | String d t' =>
                 if Nat.eqb (nat_of_ascii d) 10 then splitlines_go [] t'
                 else splitlines_go [] t
             | EmptyString => splitlines_go [] t
             end
           else splitlines_go [] t)
      else splitlines_go (c :: cur) t
  end.

Definition splitlines (s : string) : list string := splitlines_go [] s.

(** [s.replace(old, "")] for a one-character [old]. *)
Definition remove_char (x : ascii) (s : string) : string :=
  string_of_list_ascii
    (filter (fun c => negb (Ascii.eqb c x)) (list_ascii_of_string s)).

(** [s.rstrip(ch)] for one character [ch]. *)
Fixpoint rstrip_char (x : ascii) (s : string) : string :=
  match s with
  | EmptyString => EmptyString
  | String c t =>
      match rstrip_char x t with
      | EmptyString => if Ascii.eqb c x then EmptyString else String c EmptyString
      | t' => String c t'
      end
  end.

(** [_normalize_spaces]: the only ASCII character of category Zs is the
    space itself. *)
Definition is_Zs (c : ascii) : bool := Ascii.eqb c " "%char.

Definition normalize_spaces (s : string) : string :=
  string_of_list_ascii
    (map (fun c => if Ascii.eqb c " "%char || is_Zs c then " "%char else c)
       (list_ascii_of_string s)).

(** Lines 141-146: [lines] from the Tesseract output [raw]. *)
Definition ocr_lines (raw : string) : list string :=
  filter (fun ln => negb (String.eqb (Py.strip ln) ""))
    (map (fun ln => normalize_spaces (rstrip_char "013"%char (remove_char "|"%char ln)))
       (splitlines raw)).

(** [s.split("\n")]: [cur] holds the current piece, reversed. *)
Fixpoint split_nl_go (cur : list ascii) (s : string) : list string :=
  match s with
  | EmptyString => [string_of_list_ascii (rev cur)]
  | String c t =>
      if Ascii.eqb c "010"%char then string_of_list_ascii (rev cur) :: split_nl_go [] t
      else split_nl_go (c :: cur) t
  end.

Definition split_nl (s : string) : list string := split_nl_go [] s.

(** Lines 248-251 for one option: [effect.split] never returns an empty
    list, so [effect_lines[0]] does not raise. *)
Definition option_block (oe : string * string) : list string :=
  let '(option, effect) := oe in
  match split_nl effect with
  | first :: extra => (option ++ ": " ++ first) :: extra
  | [] => []
  end.

(** [overlay_lines]. *)
Definition overlay_lines (event_name : string) (event_options : EventOptions)
  : list string :=
  event_name :: List.concat (map option_block event_options).

(** [matched_skills]: for each overlay line, every skill whose lowercased
    name occurs in the lowercased line, in [parsed_skills] order. *)
Definition matched_skills {D} (lines : list string) (parsed_skills : list (string * D))
  : list (string * D) :=
  flat_map (fun line =>
      filter (fun '(skill_name, _) =>
                Py.contains (Py.lower skill_name) (Py.lower line)) parsed_skills)
    lines.

(** The signals of lines 243-263. *)
Inductive Display {D} :=
| HideAll
| ShowOverlay (lines : list string) (skills : list (string * D)).
Arguments Display : clear implicits.

Definition display {D} (found : option string * option EventOptions)
  (parsed_skills : list (string * D)) : Display D :=
  match found with
  | (Some event_name, Some event_options) =>
      match Py.truthy (Some event_name), event_options with
      | Some _, _ :: _ =>
          let lines := overlay_lines event_name event_options in
          ShowOverlay lines (matched_skills lines parsed_skills)
      | _, _ => HideAll
      end
  | _ => HideAll
  end.

End Overlay.

(* ================================================================== *)
(** * Auxiliary predicates used by the properties *)

Module Shapes.
Import Reader.

(** [x] holds a run of [n] space-like characters somewhere. *)
Definition has_run n (x : list Z) : Prop :=
  exists pre post, x = app pre post /\ run_at n post = true.

(** A file the loop of [load_events_by_char] passes over: [isfile] rejects
    its path, or loading it raises an [Exception]. *)
Definition skipped (isfile : string -> bool) (read_text : string -> PyResult string)
  {A} (json_loads : string -> PyResult A) (base_dir fname : string) : Prop :=
  isfile (os_path_join base_dir fname) = false \/
  exists e, bind (read_text (os_path_join base_dir fname)) json_loads = Raised e /\
            is_Exception e = true.

(** The shape the streak trackers keep: a candidate is held exactly when
    its hit count is positive, and [_last_key] is empty or a
    ["trainee|"] key, never empty while misses are being counted. *)
Definition gate_wf (g : GateState) : Prop :=
  (current_candidate g = None <-> candidate_hits g = 0%nat) /\
  (last_key g = "" \/ exists e, last_key g = "trainee|" ++ e) /\
  (consecutive_misses g <> 0%nat -> last_key g <> "").

End Shapes.

(* ================================================================== *)
(** * Properties *)

(** ** Gate of [read_once] *)

Module ReaderSpec.
Import Reader.

Lemma opt_eqb_some (a : option string) (n : string) :
  Py.opt_eqb a (Some n) = true <-> a = Some n.
Proof.
  destruct a as [x|]; simpl; split; intro H; try discriminate.
  - apply String.eqb_eq in H; subst; reflexivity.
  - inversion H; subst; apply String.eqb_refl.
Qed.

(** A tick on a "trainee" category line where the identifier hits. *)
Lemma read_once_hit (g : GateState) (t : Tick) l0 l1 rest name :
  tick_lines t = l0 :: l1 :: rest ->
  Py.contains "trainee" (Py.lower l0) = true ->
  identified t = Some name ->
  read_once g t =
    let event_line := trim_after_big_gap l1 4 in
    let '(g', det) := on_hit g name ("trainee|" ++ event_line) in
    mkResult g' (Match "trainee" event_line det) false None.
Proof.
  intros Hl Hc Hd. unfold identified in Hd.
  unfold read_once. rewrite Hl. cbv zeta. rewrite Hc.
  destruct (tick_detect t) as [d|]; [|discriminate]. rewrite Hd. reflexivity.
Qed.

(** A tick on a "Trainee Event" line where the identifier misses. *)
Lemma read_once_miss (g : GateState) (t : Tick) l0 l1 rest d :
  tick_lines t = l0 :: l1 :: rest ->
  Py.contains "trainee" (Py.lower l0) = true ->
  Py.contains "trainee event" (Py.lower l0) = true ->
  tick_detect t = Returns d ->
  Py.truthy d = None ->
  read_once g t =
    let event_line := trim_after_big_gap l1 4 in
    let '(g', det, pr, sv) :=
      on_miss g ("trainee|" ++ event_line) (tick_now t) (tick_selected t) (tick_save t) in
    mkResult g' (Match "trainee" event_line det) pr sv.
Proof.
  intros Hl Hc He Hd Hn. unfold read_once. rewrite Hl. cbv zeta.
  rewrite Hc, Hd, Hn, He. reflexivity.
Qed.

(** The hit branch, field by field. *)
Lemma on_hit_spec (g : GateState) name key :
  let '(g', det) := on_hit g name key in
  current_candidate g' = Some name /\
  (current_candidate g = Some name -> candidate_hits g' = S (candidate_hits g)) /\
  (current_candidate g <> Some name -> candidate_hits g' = 1%nat) /\
  det = (if (2 <=? candidate_hits g')%nat then Some name else None) /\
  last_prompt_time g' = last_prompt_time g.
Proof.
  unfold on_hit.
  destruct (Py.opt_eqb (current_candidate g) (Some name)) eqn:E.
  - apply opt_eqb_some in E. rewrite E. unfold PORTRAIT_REQUIRE_HITS.
    destruct (2 <=? S (candidate_hits g))%nat eqn:H;
      cbn -[Nat.leb]; rewrite ?H; repeat split; congruence.
  - assert (Hne : current_candidate g <> Some name)
      by (intro C; apply opt_eqb_some in C; congruence).
    cbn -[Nat.leb]. repeat split; congruence.
Qed.

(** A hit that does not confirm leaves the miss counter and its key alone. *)
Lemma on_hit_keeps_misses (g : GateState) name key :
  let '(g', det) := on_hit g name key in
  det = None ->
  consecutive_misses g' = consecutive_misses g /\ last_key g' = last_key g.
Proof.
  unfold on_hit.
  destruct (Py.opt_eqb (current_candidate g) (Some name)) eqn:E;
    [apply opt_eqb_some in E; rewrite E|];
  match goal with
  | |- context [if ?c then _ else _] => destruct c
  end; simpl; intro H; try discriminate; split; reflexivity.
Qed.

(** The miss branch never touches the hit streak unless the label fires
    and is saved. *)
Lemma on_miss_keeps_hits (g : GateState) key now selected save :
  let '(g', det, pr, sv) := on_miss g key now selected save in
  sv = None ->
  current_candidate g' = current_candidate g /\ candidate_hits g' = candidate_hits g
  /\ det = None.
Proof.
  unfold on_miss, count_miss.
  destruct (negb (key =? last_key g)%string);
  match goal with
  | |- context [if ?c then _ else _] => destruct c
  end; simpl; try (destruct selected as [sel|]; [destruct (Py.truthy sel);
    [destruct save|]|]); simpl; intuition congruence.
Qed.

(** The prompt branch is taken exactly when the updated miss counter
    reaches [PORTRAIT_REQUIRE_MISSES] and the cooldown has elapsed; the
    prompt time is recorded then and only then. *)
Lemma on_miss_prompt (g : GateState) key now selected save :
  let '(g', det, pr, sv) := on_miss g key now selected save in
  pr = ((2 <=? consecutive_misses (count_miss g key))%nat
        && (15000 <? now - last_prompt_time g)%Z) /\
  last_prompt_time g' = (if pr then now else last_prompt_time g).
Proof.
  unfold on_miss. cbv zeta.
  assert (Hl : last_prompt_time (count_miss g key) = last_prompt_time g)
    by (unfold count_miss; destruct (negb _); reflexivity).
  rewrite Hl. unfold PORTRAIT_REQUIRE_MISSES, PROMPT_COOLDOWN_MS.
  match goal with
  | |- context [if ?c then _ else _] => destruct c eqn:E
  end.
  - destruct selected as [sel|]; [destruct (Py.truthy sel); [destruct save|]|];
      simpl; auto.
  - simpl. split; [reflexivity | exact Hl].
Qed.

Lemma count_miss_spec (g : GateState) key :
  (key <> last_key g -> consecutive_misses (count_miss g key) = 1%nat) /\
  (key = last_key g ->
   consecutive_misses (count_miss g key) = S (consecutive_misses g)).
Proof.
  unfold count_miss. split; intro H.
  - apply String.eqb_neq in H. rewrite H. reflexivity.
  - subst. rewrite String.eqb_refl. reflexivity.
Qed.

End ReaderSpec.

Module GateClaims.
Import Reader ReaderSpec.

Lemma gaps_above_all p l :
  gaps_above p l -> forall x, In x l -> (p + PROMPT_COOLDOWN_MS < x)%Z.
Proof.
  revert p. induction l as [|y l IH]; simpl; intros p Hg x Hin; [contradiction|].
  destruct Hg as [H1 H2]. destruct Hin as [<-|Hin]; [exact H1|].
  specialize (IH y H2 x Hin). unfold PROMPT_COOLDOWN_MS in *. lia.
Qed.

Lemma gaps_above_pairwise p l :
  gaps_above p l ->
  forall i j a b, (i < j)%nat -> nth_error l i = Some a -> nth_error l j = Some b ->
  (a + PROMPT_COOLDOWN_MS < b)%Z.
Proof.
  revert p. induction l as [|y l IH]; intros p Hg i j a b Hij Ha Hb.
  - destruct i; discriminate.
  - destruct Hg as [H1 H2]. destruct i as [|i], j as [|j]; simpl in *; try lia.
    + inversion Ha; subst. apply (gaps_above_all a l H2).
      eapply nth_error_In; eassumption.
    + eapply IH; [exact H2 | | exact Ha | exact Hb]. lia.
Qed.

(** One tick: whether it prompts, and where [_last_prompt_time] goes. *)
Lemma read_once_prompt_time (g : GateState) (t : Tick) :
  let r := read_once g t in
  last_prompt_time (next_gate r) =
    (if prompted r then tick_now t else last_prompt_time g) /\
  (prompted r = true -> (last_prompt_time g + PROMPT_COOLDOWN_MS < tick_now t)%Z).
Proof.
  unfold read_once.
  destruct (tick_lines t) as [|l0 [|l1 rest]];
    [simpl; split; [reflexivity|discriminate] ..|].
  cbv zeta.
  destruct (Py.contains "trainee" (Py.lower l0)).
  - destruct (tick_detect t) as [d|]; [|simpl; split; [reflexivity|discriminate]].
    destruct (Py.truthy d) as [name|].
    + pose proof (on_hit_spec g name ("trainee|" ++ trim_after_big_gap l1 4)) as H.
      destruct (on_hit g name _) as [g' det]. simpl. split; [tauto | discriminate].
    + destruct (Py.contains "trainee event" (Py.lower l0)); simpl; [|split; [reflexivity|discriminate]].
      pose proof (on_miss_prompt g ("trainee|" ++ trim_after_big_gap l1 4)
                    (tick_now t) (tick_selected t) (tick_save t)) as H.
      destruct (on_miss g _ _ _ _) as [[[g' det] pr] sv]. simpl.
      destruct H as [Hpr Hl]. split; [exact Hl|].
      intro E. subst pr. apply andb_true_iff in E. destruct E as [_ E].
      apply Z.ltb_lt in E. unfold PROMPT_COOLDOWN_MS. lia.
  - destruct (Py.contains "support" (Py.lower l0)); simpl; split; auto; discriminate.
Qed.

Lemma prompt_times_gaps (g : GateState) (ts : list Tick) :
  gaps_above (last_prompt_time g) (prompt_times g ts).
Proof.
  revert g. induction ts as [|t ts IH]; intro g; simpl; [exact I|].
  destruct (read_once_prompt_time g t) as [Hl Hp].
  specialize (IH (next_gate (read_once g t))). rewrite Hl in IH.
  destruct (prompted (read_once g t)); simpl.
  - split; [apply Hp; reflexivity | exact IH].
  - exact IH.
Qed.

(** C1 (counterexample). The hit streak is not a run of consecutive ticks:
    from the initial state, a hit for "Alpha", a miss on the same
    "Trainee Event" line, then a hit for "Alpha" again confirms "Alpha" on
    the third tick, although the tick before it returned no name. *)
Lemma confirm_across_miss_tick :
  let ts := [mkTick ["Trainee Event"; "Summer Camp"] (Returns (Some "Alpha")) 100000
               (Returns None) (Returns tt);
             mkTick ["Trainee Event"; "Summer Camp"] (Returns None) 101000
               (Returns None) (Returns tt);
             mkTick ["Trainee Event"; "Summer Camp"] (Returns (Some "Alpha")) 102000
               (Returns None) (Returns tt)] in
  map tick_detect ts = [Returns (Some "Alpha"); Returns None; Returns (Some "Alpha")] /\
  map detected_of (snd (run initial_gate ts)) = [None; None; Some "Alpha"].
Proof. split; reflexivity. Qed.

(** C1 (amended). On a tick whose category line contains "trainee" and
    where the identifier returns a name, [current_candidate] becomes that
    name, [hit_count] is incremented if the name equals the previous
    candidate and restarts at 1 otherwise, and [detected_char] is the name
    exactly when the new [hit_count] is at least 2. Hence of two such
    consecutive ticks with different names the second never confirms, and
    neither does the first when its name differs from the candidate held
    before it (e.g. from the initial state). A miss on a "Trainee Event"
    line that does not end in a human label leaves [current_candidate] and
    [hit_count] unchanged, so the counted hits need not be consecutive
    ticks. *)
Theorem hit_streak_confirmation (g : GateState) (t1 t2 : Tick)
  l0 l1 rest m0 m1 rest' n1 n2 :
  tick_lines t1 = l0 :: l1 :: rest ->
  Py.contains "trainee" (Py.lower l0) = true ->
  identified t1 = Some n1 ->
  tick_lines t2 = m0 :: m1 :: rest' ->
  Py.contains "trainee" (Py.lower m0) = true ->
  identified t2 = Some n2 ->
  let r1 := read_once g t1 in
  let r2 := read_once (next_gate r1) t2 in
  current_candidate (next_gate r1) = Some n1 /\
  (current_candidate g = Some n1 -> candidate_hits (next_gate r1) = S (candidate_hits g)) /\
  (current_candidate g <> Some n1 -> candidate_hits (next_gate r1) = 1%nat) /\
  detected_of r1 = (if (2 <=? candidate_hits (next_gate r1))%nat then Some n1 else None) /\
  (n1 <> n2 -> candidate_hits (next_gate r2) = 1%nat /\ detected_of r2 = None) /\
  (current_candidate g <> Some n1 -> n1 <> n2 ->
   detected_of r1 = None /\ detected_of r2 = None) /\
  (forall (h : GateState) (t : Tick) k0 k1 rest'',
     tick_lines t = k0 :: k1 :: rest'' ->
     Py.contains "trainee" (Py.lower k0) = true ->
     Py.contains "trainee event" (Py.lower k0) = true ->
     identified t = None ->
     saved (read_once h t) = None ->
     current_candidate (next_gate (read_once h t)) = current_candidate h /\
     candidate_hits (next_gate (read_once h t)) = candidate_hits h).
Proof.
  intros H1l H1c H1d H2l H2c H2d r1 r2.
  assert (E1 : r1 = let event_line := trim_after_big_gap l1 4 in
                    let '(g', det) := on_hit g n1 ("trainee|" ++ event_line) in
                    mkResult g' (Match "trainee" event_line det) false None)
    by (apply (read_once_hit g t1 l0 l1 rest n1); assumption).
  pose proof (on_hit_spec g n1 ("trainee|" ++ trim_after_big_gap l1 4)) as S1.
  cbv zeta in E1.
  destruct (on_hit g n1 _) as [g1 det1] eqn:Eh1.
  assert (E2 : r2 = let event_line := trim_after_big_gap m1 4 in
                    let '(g', det) := on_hit g1 n2 ("trainee|" ++ event_line) in
                    mkResult g' (Match "trainee" event_line det) false None)
    by (unfold r2; rewrite E1; apply (read_once_hit g1 t2 m0 m1 rest' n2); assumption).
  pose proof (on_hit_spec g1 n2 ("trainee|" ++ trim_after_big_gap m1 4)) as S2.
  cbv zeta in E2.
  destruct (on_hit g1 n2 _) as [g2 det2] eqn:Eh2.
  rewrite E2, E1. simpl.
  destruct S1 as (C1 & Hs1 & Hd1 & D1 & _).
  destruct S2 as (C2 & Hs2 & Hd2 & D2 & _).
  assert (Second : n1 <> n2 -> candidate_hits g2 = 1%nat /\ det2 = None).
  { intro Hn. assert (Hh : candidate_hits g2 = 1%nat)
      by (apply Hd2; rewrite C1; congruence).
    split; [exact Hh|]. rewrite D2, Hh. reflexivity. }
  split; [exact C1|]. split; [exact Hs1|]. split; [exact Hd1|].
  split; [exact D1|]. split; [exact Second|]. split.
  - intros Hc Hn. split; [|apply Second, Hn].
    rewrite D1, (Hd1 Hc). reflexivity.
  - intros h t k0 k1 rest'' Hl Hc He Hd Hs. unfold identified in Hd.
    destruct (tick_detect t) as [d|] eqn:Ed.
    + rewrite (read_once_miss h t k0 k1 rest'' d Hl Hc He Ed Hd) in *. cbv zeta in *.
      pose proof (on_miss_keeps_hits h ("trainee|" ++ trim_after_big_gap k1 4)
                    (tick_now t) (tick_selected t) (tick_save t)) as K.
      destruct (on_miss h _ _ _ _) as [[[h' det] pr] sv]. simpl in *.
      destruct (K Hs) as (Kc & Kh & _). split; assumption.
    + unfold read_once. rewrite Hl. cbv zeta. rewrite Hc, Ed. split; reflexivity.
Qed.

Lemma hit_streak_confirmation_witness :
  let t1 := mkTick ["Trainee Event"; "Summer Camp"] (Returns (Some "Beta")) 0
              (Returns None) (Returns tt) in
  let t2 := mkTick ["Trainee Event"; "Summer Camp"] (Returns (Some "Gamma")) 0
              (Returns None) (Returns tt) in
  detected_of (read_once initial_gate t1) = None /\
  detected_of (read_once (next_gate (read_once initial_gate t1)) t2) = None.
Proof.
  intros t1 t2.
  refine (proj1 (proj2 (proj2 (proj2 (proj2 (proj2
            (hit_streak_confirmation initial_gate t1 t2
               "Trainee Event" "Summer Camp" [] "Trainee Event" "Summer Camp" []
               "Beta" "Gamma" eq_refl eq_refl eq_refl eq_refl eq_refl eq_refl))))))
            _ _); discriminate.
Defined.

(** C2 (counterexample). The miss streak is not a run of consecutive
    ticks either: a miss, a hit for "Beta" that does not confirm, then a
    miss on the same "Trainee Event" line fire the labeling prompt on the
    third tick. *)
Lemma prompt_after_interrupted_misses :
  let ts := [mkTick ["Trainee Event"; "Summer Camp"] (Returns None) 100000
               (Returns None) (Returns tt);
             mkTick ["Trainee Event"; "Summer Camp"] (Returns (Some "Beta")) 101000
               (Returns None) (Returns tt);
             mkTick ["Trainee Event"; "Summer Camp"] (Returns None) 102000
               (Returns None) (Returns tt)] in
  map tick_detect ts = [Returns None; Returns (Some "Beta"); Returns None] /\
  map prompted (snd (run initial_gate ts)) = [false; false; true].
Proof. split; reflexivity. Qed.

(** C2 (amended). The prompt fires (the prompt branch of line 200 is
    taken) on a tick only if that tick is an identifier miss on a
    "Trainee Event" line whose miss counter, updated on that tick, is at
    least [PORTRAIT_REQUIRE_MISSES] = 2, and more than the 15 s cooldown
    has passed since [last_prompt_time]; it then records the tick's time as
    [last_prompt_time], which no other tick changes. The update restarts
    the counter at 1 on a new event key and increments it on the same key;
    a hit that does not confirm leaves the counter and its key unchanged,
    so the counted misses need not be consecutive ticks. Along any tick
    loop, any two prompts are more than 15 s apart, and the first is more
    than 15 s after the initial [last_prompt_time]. *)
Theorem prompt_gating :
  (forall (g : GateState) (t : Tick),
     prompted (read_once g t) = true ->
     exists l0 l1 rest d,
       tick_lines t = l0 :: l1 :: rest /\
       Py.contains "trainee event" (Py.lower l0) = true /\
       tick_detect t = Returns d /\ Py.truthy d = None /\
       (PORTRAIT_REQUIRE_MISSES <=
          consecutive_misses (count_miss g ("trainee|" ++ trim_after_big_gap l1 4)))%nat /\
       (last_prompt_time g + PROMPT_COOLDOWN_MS < tick_now t)%Z /\
       last_prompt_time (next_gate (read_once g t)) = tick_now t) /\
  (forall (g : GateState) key,
     (key <> last_key g -> consecutive_misses (count_miss g key) = 1%nat) /\
     (key = last_key g -> consecutive_misses (count_miss g key) = S (consecutive_misses g))) /\
  (forall (g : GateState) (t : Tick) l0 l1 rest name,
     tick_lines t = l0 :: l1 :: rest ->
     Py.contains "trainee" (Py.lower l0) = true ->
     identified t = Some name ->
     detected_of (read_once g t) = None ->
     consecutive_misses (next_gate (read_once g t)) = consecutive_misses g /\
     last_key (next_gate (read_once g t)) = last_key g) /\
  (forall (g : GateState) (t : Tick),
     prompted (read_once g t) = false ->
     last_prompt_time (next_gate (read_once g t)) = last_prompt_time g) /\
  (forall (g : GateState) ts i j a b,
     (i < j)%nat ->
     nth_error (prompt_times g ts) i = Some a ->
     nth_error (prompt_times g ts) j = Some b ->
     (a + PROMPT_COOLDOWN_MS < b)%Z) /\
  (forall (g : GateState) ts a,
     In a (prompt_times g ts) -> (last_prompt_time g + PROMPT_COOLDOWN_MS < a)%Z).
Proof.
  split; [|split; [|split; [|split; [|split]]]].
  - intros g t Hp.
    destruct (read_once_prompt_time g t) as [Hlpt Hcool].
    rewrite Hp in Hlpt. specialize (Hcool Hp).
    destruct (tick_lines t) as [|l0 [|l1 rest]] eqn:Hl;
      [unfold read_once in Hp; rewrite Hl in Hp; discriminate ..|].
    destruct (Py.contains "trainee" (Py.lower l0)) eqn:Hc.
    2:{ unfold read_once in Hp; rewrite Hl in Hp; cbv zeta in Hp; rewrite Hc in Hp.
        destruct (Py.contains "support" (Py.lower l0)); discriminate. }
    destruct (tick_detect t) as [d|] eqn:Ed.
    2:{ unfold read_once in Hp; rewrite Hl in Hp; cbv zeta in Hp.
        rewrite Hc, Ed in Hp. discriminate. }
    exists l0, l1, rest, d.
    destruct (Py.truthy d) as [name|] eqn:Hd.
    { exfalso.
      assert (Hi : identified t = Some name) by (unfold identified; rewrite Ed; exact Hd).
      rewrite (read_once_hit g t l0 l1 rest name Hl Hc Hi) in Hp.
      cbv zeta in Hp. destruct (on_hit g name _). discriminate. }
    destruct (Py.contains "trainee event" (Py.lower l0)) eqn:He.
    2:{ unfold read_once in Hp; rewrite Hl in Hp; cbv zeta in Hp.
        rewrite Hc, Ed, Hd, He in Hp. discriminate. }
    rewrite (read_once_miss g t l0 l1 rest d Hl Hc He Ed Hd) in Hp. cbv zeta in Hp.
    pose proof (on_miss_prompt g ("trainee|" ++ trim_after_big_gap l1 4)
                  (tick_now t) (tick_selected t) (tick_save t)) as M.
    destruct (on_miss g _ _ _ _) as [[[g' det] pr] sv]. simpl in Hp.
    destruct M as [Hpr _]. rewrite Hpr in Hp.
    apply andb_true_iff in Hp. destruct Hp as [Hm _].
    apply Nat.leb_le in Hm.
    repeat split; auto.
  - exact count_miss_spec.
  - intros g t l0 l1 rest name Hl Hc Hi.
    rewrite (read_once_hit g t l0 l1 rest name Hl Hc Hi). cbv zeta.
    pose proof (on_hit_keeps_misses g name ("trainee|" ++ trim_after_big_gap l1 4)) as K.
    destruct (on_hit g name _) as [g' det]. simpl. exact K.
  - intros g t Hp. destruct (read_once_prompt_time g t) as [H _].
    rewrite Hp in H. exact H.
  - intros g ts. apply gaps_above_pairwise with (p := last_prompt_time g).
    apply prompt_times_gaps.
  - intros g ts. apply gaps_above_all. apply prompt_times_gaps.
Qed.

Lemma prompt_gating_witness :
  let g := mkGate None 0 1 "trainee|Summer Camp" 0 in
  let t := mkTick ["Trainee Event"; "Summer Camp"] (Returns None) 100000
             (Returns None) (Returns tt) in
  let t' := mkTick ["Trainee Event"; "Summer Camp"] (Returns (Some "Beta")) 100000
              (Returns None) (Returns tt) in
  (last_prompt_time g + PROMPT_COOLDOWN_MS < tick_now t)%Z /\
  consecutive_misses (next_gate (read_once g t')) = consecutive_misses g /\
  (nth_error (prompt_times g [t; t; t]) 0 = Some 100000%Z ->
   nth_error (prompt_times g [t; t; t]) 1 = Some 100000%Z -> False).
Proof.
  intros g t t'. destruct prompt_gating as [P1 [_ [P3 [_ [P5 _]]]]]. split; [|split].
  - destruct (P1 g t eq_refl) as (l0 & l1 & rest & d & _ & _ & _ & _ & _ & H & _). exact H.
  - exact (proj1 (P3 g t' "Trainee Event" "Summer Camp" [] "Beta"
                    eq_refl eq_refl eq_refl eq_refl)).
  - intros Ha Hb. pose proof (P5 g [t; t; t] 0%nat 1%nat _ _ (Nat.lt_0_1) Ha Hb) as H.
    unfold PROMPT_COOLDOWN_MS in H. lia.
Defined.

(** C3 (code_bug). [read_once] resets the gating on a "support" category
    line, but on a line of unknown category it only emits [hide_all] and
    returns: a gate tracking "Alpha" (one hit, one miss) is left as it was,
    although [reset_portrait_gating]'s docstring lists "the OCR header
    doesn't say Trainee Event" among its call sites. *)
Theorem unknown_category_keeps_gate :
  let g0 := mkGate (Some "Alpha") 1 1 "trainee|Summer Camp" 0 in
  read_once g0 (mkTick ["Support Card Event"; "Summer Camp"] (Returns None) 0
                  (Returns None) (Returns tt)) =
    mkResult (reset_portrait_gating g0) (Match "support" "Summer Camp" None) false None /\
  read_once g0 (mkTick ["Scenario Event"; "Summer Camp"] (Returns None) 0
                  (Returns None) (Returns tt)) =
    mkResult g0 HideAll false None /\
  g0 <> reset_portrait_gating g0.
Proof. split; [reflexivity | split; [reflexivity | discriminate]]. Qed.

(** C4 (code_bug). After a successful human label the code clears the
    miss counter, the candidate and the hit counter, but not [_last_key]:
    the gate is left with [last_key = "trainee|Summer Camp"] instead of
    the empty string [reset_portrait_gating] would set, although its
    docstring names "after a successful prompt/save" as a call site. *)
Theorem label_keeps_last_key :
  let g0 := mkGate None 0 1 "trainee|Summer Camp" 0 in
  let r := read_once g0 (mkTick ["Trainee Event"; "Summer Camp"] (Returns None) 100000
                           (Returns (Some "Alpha")) (Returns tt)) in
  prompted r = true /\ saved r = Some "Alpha" /\
  next_gate r = mkGate None 0 0 "trainee|Summer Camp" 100000 /\
  last_key (next_gate r) <> "".
Proof. split; [reflexivity | split; [reflexivity | split; [reflexivity | discriminate]]]. Qed.

End GateClaims.

(** ** Event catalog and matcher *)

Module EventClaims.
Import Events.

Lemma py_max_fold_in (l : list (Q * string)) acc p :
  fold_left (fun acc y =>
               match acc with
               | None => Some y
               | Some m => if tuple_gt y m then Some y else Some m
               end) l acc = Some p ->
  acc = Some p \/ In p l.
Proof.
  revert acc. induction l as [|y l IH]; simpl; intros acc H; [left; exact H|].
  destruct (IH _ H) as [E|E]; [|right; right; exact E].
  destruct acc as [m|].
  - destruct (tuple_gt y m); inversion E; subst; [right; left; reflexivity | left; reflexivity].
  - inversion E; subst. right; left; reflexivity.
Qed.

Lemma py_max_in (l : list (Q * string)) p : py_max l = Some p -> In p l.
Proof.
  unfold py_max. intro H. destruct (py_max_fold_in l None p H) as [E|E];
    [discriminate | exact E].
Qed.

(** Whatever [get_close_matches] returns passed the [ratio >= cutoff] test. *)
Lemma get_close_matches_cutoff rqr qr ratio word cands cutoff x rest :
  get_close_matches rqr qr ratio word cands cutoff = Ok (x :: rest) ->
  (cutoff <= ratio x word)%Q.
Proof.
  unfold get_close_matches.
  destruct (negb (Qle_bool 0 cutoff && Qle_bool cutoff 1)); [discriminate|].
  destruct (py_max _) as [[q y]|] eqn:Hm; [|discriminate].
  intro E. inversion E; subst y. apply py_max_in in Hm.
  apply in_map_iff in Hm. destruct Hm as [x' [Ex Hin]]. inversion Ex; subst x'.
  apply filter_In in Hin. destruct Hin as [_ Hb].
  apply andb_true_iff in Hb. destruct Hb as [_ Hb].
  apply Qle_bool_iff. exact Hb.
Qed.

Lemma effective_cutoff_ambiguous line confidence :
  existsb (fun s => Py.contains s (Py.lower line)) AMBIGUOUS = true ->
  (AMBIGUOUS_CUTOFF <= effective_cutoff line confidence)%Q.
Proof.
  unfold effective_cutoff. intro H. rewrite H.
  destruct (Qle_bool AMBIGUOUS_CUTOFF confidence) eqn:E.
  - apply Qle_bool_iff. exact E.
  - apply Qle_refl.
Qed.

(** C5 (counterexample). The name "Alpha " has no entry in the
    per-character index, yet [find_best_match] does not fall back to the
    global map: it retries with the stripped name and resolves the event
    within "Alpha"'s map. *)
Lemma stripped_name_scopes_match :
  let alpha : EventMap := [("Summer Camp", [("Top", "Alpha effect")])] in
  let global : EventMap := [("Summer Camp", [("Top", "Global effect")])] in
  let by_char := [("Alpha", alpha)] in
  let exact (x w : string) : Q := if String.eqb x w then 1#1 else 0#1 in
  dict_get "Alpha " by_char = None /\
  find_best_match exact exact exact (fun _ => Ok global) by_char
    "Summer Camp" "trainee" (Some "Alpha ") (7#10)
  = Ok (Some "Summer Camp", Some [("Top", "Alpha effect")]).
Proof. split; reflexivity. Qed.

(** C5 (amended). For the "trainee" category and an event line of at
    least 4 characters: a non-empty character name whose entry in the
    per-character index is a non-empty map is matched within exactly that
    map; a non-empty name with no entry is matched within the entry of its
    whitespace-stripped form when there is one, and within the global
    "trainee" map otherwise; no name, or the empty name, is matched within
    the global "trainee" map. *)
Theorem scoped_candidates rqr qr ratio load (by_char : list (string * EventMap))
  line confidence :
  (4 <= String.length line)%nat ->
  (forall name (m : EventMap),
     name <> "" -> dict_get name by_char = Some m -> m <> [] ->
     find_best_match rqr qr ratio load by_char line "trainee" (Some name) confidence
     = match_in rqr qr ratio line confidence m) /\
  (forall name,
     name <> "" -> dict_get name by_char = None ->
     find_best_match rqr qr ratio load by_char line "trainee" (Some name) confidence
     = match dict_get (Py.strip name) by_char with
       | Some m => match_in rqr qr ratio line confidence m
       | None => bind (load "trainee") (match_in rqr qr ratio line confidence)
       end) /\
  find_best_match rqr qr ratio load by_char line "trainee" None confidence
  = bind (load "trainee") (match_in rqr qr ratio line confidence) /\
  find_best_match rqr qr ratio load by_char line "trainee" (Some "") confidence
  = bind (load "trainee") (match_in rqr qr ratio line confidence).
Proof.
  intro Hlen.
  assert (Hl : Nat.ltb (String.length line) 4 = false) by (apply Nat.ltb_ge; exact Hlen).
  unfold find_best_match, candidates_for. rewrite Hl. simpl String.eqb. cbv iota.
  split; [|split; [|split]].
  - intros name m Hn Hm Hne.
    assert (Ht : Py.truthy (Some name) = Some name)
      by (destruct name; [congruence | reflexivity]).
    rewrite Ht, Hm. destruct m as [|e m]; [congruence|]. reflexivity.
  - intros name Hn Hm.
    assert (Ht : Py.truthy (Some name) = Some name)
      by (destruct name; [congruence | reflexivity]).
    rewrite Ht, Hm. destruct (dict_get (Py.strip name) by_char); reflexivity.
  - reflexivity.
  - reflexivity.
Qed.

Lemma scoped_candidates_witness :
  let alpha : EventMap := [("Summer Camp", [("Top", "Alpha effect")])] in
  let global : EventMap := [("Summer Camp", [("Top", "Global effect")])] in
  let exact (x w : string) : Q := if String.eqb x w then 1#1 else 0#1 in
  find_best_match exact exact exact (fun _ => Ok global) [("Alpha", alpha)]
    "Summer Camp" "trainee" (Some "Alpha") (7#10)
  = match_in exact exact exact "Summer Camp" (7#10) alpha.
Proof.
  intros alpha global exact.
  refine (proj1 (scoped_candidates exact exact exact (fun _ => Ok global)
                   [("Alpha", alpha)] "Summer Camp" (7#10) _) "Alpha" alpha _ _ _).
  - apply Nat.leb_le. reflexivity.
  - discriminate.
  - reflexivity.
  - discriminate.
Defined.

(** C6. When the event line contains "inspiration" or "summer camp"
    (case-insensitively), the cutoff [find_best_match] passes to
    [get_close_matches] is at least 0.95, and every event it returns has a
    similarity of at least 0.95 to the line, whatever the base confidence. *)
Theorem ambiguous_cutoff rqr qr ratio load by_char line category character_name
  confidence name opts :
  existsb (fun s => Py.contains s (Py.lower line)) AMBIGUOUS = true ->
  (95 # 100 <= effective_cutoff line confidence)%Q /\
  (find_best_match rqr qr ratio load by_char line category character_name confidence
   = Ok (Some name, opts) ->
   (95 # 100 <= ratio name line)%Q).
Proof.
  intro Hamb. pose proof (effective_cutoff_ambiguous line confidence Hamb) as Hc.
  split; [exact Hc|].
  unfold find_best_match.
  destruct (Nat.ltb (String.length line) 4); [discriminate|].
  destruct (candidates_for load by_char category character_name) as [m|e]; cbn [bind];
    [|discriminate].
  unfold match_in. destruct m as [|p m]; [discriminate|].
  destruct (get_close_matches rqr qr ratio line _ _) as [matches|e] eqn:Hg; cbn [bind];
    [|discriminate].
  destruct matches as [|x rest]; [discriminate|].
  destruct (dict_get x (p :: m)); intro E; inversion E; subst.
  apply get_close_matches_cutoff in Hg.
  eapply Qle_trans; [exact Hc | exact Hg].
Qed.

Lemma ambiguous_cutoff_witness :
  let exact (x w : string) : Q := if String.eqb x w then 1#1 else 0#1 in
  (95 # 100 <= effective_cutoff "Summer Camp" (7#10))%Q.
Proof.
  intro exact.
  exact (proj1 (ambiguous_cutoff exact exact exact (fun _ => Ok []) []
                  "Summer Camp" "trainee" None (7#10) "Summer Camp" None eq_refl)).
Defined.

(** C7. An event line shorter than 4 characters (the empty one included)
    never matches, whatever the category, character, confidence and
    catalog. *)
Theorem short_line_no_match rqr qr ratio load by_char line category
  character_name confidence :
  (String.length line < 4)%nat ->
  find_best_match rqr qr ratio load by_char line category character_name confidence
  = Ok (None, None).
Proof.
  intro H. unfold find_best_match.
  apply Nat.ltb_lt in H. rewrite H. reflexivity.
Qed.

Lemma short_line_no_match_witness :
  let exact (x w : string) : Q := if String.eqb x w then 1#1 else 0#1 in
  find_best_match exact exact exact (fun _ => Ok [("Sum", [("Top", "x")])]) []
    "Sum" "support" None (1#10) = Ok (None, None).
Proof.
  intro exact. apply short_line_no_match. apply Nat.ltb_lt. reflexivity.
Defined.

(** C8. Whatever the category, when reading [{base_dir}/{category}_events.json]
    fails (missing, unopenable, not UTF-8) or its JSON does not parse,
    [load_events] returns the empty map instead of raising. *)
Theorem load_events_failure_empty read_text json_loads category base_dir :
  let filename := os_path_join base_dir (category ++ "_events.json") in
  (exists e, read_text filename = Raised e /\ read_failure e) \/
  (exists txt e, read_text filename = Ok txt /\ json_loads txt = Raised e /\ parse_failure e) ->
  load_events read_text json_loads category base_dir = Ok [].
Proof.
  intros filename [[e [Hr Hf]] | [txt [e [Hr [Hp Hf]]]]]; unfold load_events;
    fold filename; rewrite Hr; simpl.
  - destruct Hf; reflexivity.
  - rewrite Hp. destruct Hf; reflexivity.
Qed.

Lemma load_events_failure_empty_witness :
  load_events (fun _ => Raised FileNotFoundError) (fun _ => Ok []) "trainee" "events"
  = Ok [].
Proof.
  apply load_events_failure_empty. left. exists FileNotFoundError.
  split; [reflexivity | constructor].
Defined.

End EventClaims.

(** ** Template store *)

Module PortraitClaims.
Import Portraits.

Lemma str_length_app (s t : string) :
  String.length (s ++ t) = (String.length s + String.length t)%nat.
Proof. induction s as [|c s IH]; simpl; [reflexivity | rewrite IH; reflexivity]. Qed.

Lemma last_dot_aux_app i (s t : string) acc :
  last_dot_aux i (s ++ t) acc
  = last_dot_aux (i + String.length s) t (last_dot_aux i s acc).
Proof.
  revert i acc. induction s as [|c s IH]; intros i acc; simpl.
  - rewrite Nat.add_0_r. reflexivity.
  - rewrite IH, Nat.add_succ_r. reflexivity.
Qed.

Lemma substring_app_prefix (s t : string) :
  substring 0 (String.length s) (s ++ t) = s.
Proof.
  induction s as [|c s IH]; simpl; [destruct t; reflexivity | rewrite IH; reflexivity].
Qed.

Lemma substring_app_suffix (s t : string) m :
  substring (String.length s) m (s ++ t) = substring 0 m t.
Proof. induction s as [|c s IH]; simpl; [reflexivity | exact IH]. Qed.

(** A file [<safe>.png] splits back into [safe] and [".png"] as soon as
    [safe] holds a character other than a dot. *)
Lemma splitext_png (safe : string) :
  existsb (fun c => negb (Ascii.eqb c "."%char)) (list_ascii_of_string safe) = true ->
  splitext (safe ++ ".png") = (safe, ".png").
Proof.
  intro H. unfold splitext.
  rewrite last_dot_aux_app. simpl (0 + String.length safe)%nat.
  change (last_dot_aux (String.length safe) ".png" (last_dot_aux 0 safe None))
    with (Some (String.length safe)).
  cbv iota beta.
  rewrite substring_app_prefix, H, substring_app_suffix, str_length_app.
  replace (String.length safe + String.length ".png" - String.length safe)%nat
    with 4%nat by (simpl; lia).
  reflexivity.
Qed.

Section Claims.
Variables PilImage Gray : Type.
Variable rgb2gray : PilImage -> Gray.
Variable imread_gray : PilImage -> option Gray.
Variable equalize_hist : Gray -> Gray.
Variable match_max : Gray -> Gray -> Q.

(** C9. With an empty template cache, [detect_from_roi] reloads from disk
    exactly once, and only then scores the templates it got, once each;
    if the reload leaves the cache empty it returns [(None, 0.0)] after the
    reload alone, scoring nothing. *)
Theorem detect_reloads_once (st : Store PilImage Gray) (roi : PilImage) min_score :
  portrait_templates st = [] ->
  let st' := fst (load_portraits imread_gray st) in
  let '(st'', steps, res) :=
    detect_from_roi rgb2gray imread_gray equalize_hist match_max st roi min_score in
  st'' = st' /\
  steps = Reload :: map (fun '(name, _) => Scored name) (portrait_templates st') /\
  (portrait_templates st' = [] -> steps = [Reload] /\ res = (None, 0)).
Proof.
  intros H st'. unfold detect_from_roi. rewrite H. fold st'.
  destruct (portrait_templates st') as [|p ts] eqn:E.
  - repeat split; reflexivity.
  - destruct (best_of match_max _ (p :: ts)) as [bn bs].
    split; [reflexivity|]. split; [reflexivity|]. discriminate.
Qed.

(** C10 (amended). A name that sanitizes to the empty string makes
    [save_portrait] return [None] without writing a file or touching the
    template cache; its only effect is [ensure_dirs] creating the portrait
    directory when it was missing. Any other name is saved as the file
    [<safe>.png] in that directory (its path is returned) and cached under
    the key [safe], the sanitized name; when [safe] holds a character other
    than a dot, [os.path.splitext] gives that file name back the stem
    [safe]. *)
Theorem save_portrait_sanitized (st : Store PilImage Gray) name img portrait_dir :
  (sanitize name = "" ->
   save_portrait rgb2gray st name img portrait_dir =
     (mkStore (mkDisk true (entries (disk st))) (portrait_templates st), None)) /\
  (sanitize name <> "" ->
   let safe := sanitize name in
   save_portrait rgb2gray st name img portrait_dir =
     (mkStore (mkDisk true (dict_set (safe ++ ".png") img (entries (disk st))))
              (dict_set safe (rgb2gray img) (portrait_templates st)),
      Some (os_path_join portrait_dir (safe ++ ".png"))) /\
   (existsb (fun c => negb (Ascii.eqb c "."%char)) (list_ascii_of_string safe) = true ->
    splitext (safe ++ ".png") = (safe, ".png"))).
Proof.
  split; intro H; unfold save_portrait.
  - rewrite H. reflexivity.
  - apply String.eqb_neq in H. rewrite H. split; [reflexivity | apply splitext_png].
Qed.

End Claims.

(** C9 at a cold start: one portrait file on disk, an empty cache. *)
Lemma detect_reloads_once_witness :
  let st : Store nat nat := mkStore (mkDisk true [("Alpha.png", 7%nat)]) [] in
  let st' := fst (load_portraits (fun n => Some n) st) in
  st' = mkStore (mkDisk true [("Alpha.png", 7%nat)]) [("Alpha", 7%nat)] /\
  let '(st'', steps, res) :=
    detect_from_roi (fun n => n) (fun n => Some n) (fun n => n)
      (fun a b => if Nat.eqb a b then 1#1 else 0#1) st 7%nat (7#10) in
  st'' = st' /\ steps = Reload :: map (fun '(name, _) => Scored name) (portrait_templates st')
  /\ (portrait_templates st' = [] -> steps = [Reload] /\ res = (None, 0)).
Proof.
  intros st st'. split; [reflexivity|].
  exact (detect_reloads_once nat nat (fun n => n) (fun n => Some n) (fun n => n)
           (fun a b => if Nat.eqb a b then 1#1 else 0#1) st 7%nat (7#10) eq_refl).
Defined.

(** C10 (counterexample). [save_portrait] calls [ensure_dirs] before it
    checks the name: saving under " ?* " (empty once sanitized) returns
    [None] but creates the missing portrait directory. *)
Lemma save_empty_name_creates_dir :
  let st : Store unit unit := mkStore (mkDisk false []) [] in
  sanitize " ?* " = "" /\
  save_portrait (fun _ => tt) st " ?* " tt "assets/portraits"
  = (mkStore (mkDisk true []) [], None) /\
  disk (fst (save_portrait (fun _ => tt) st " ?* " tt "assets/portraits")) <> disk st.
Proof. split; [reflexivity | split; [reflexivity | discriminate]]. Qed.

Lemma save_portrait_sanitized_witness :
  let st : Store unit unit := mkStore (mkDisk true []) [] in
  save_portrait (fun _ => tt) st " Alpha? " tt "assets/portraits"
  = (mkStore (mkDisk true [("Alpha.png", tt)]) [("Alpha", tt)],
     Some "assets/portraits/Alpha.png").
Proof.
  intro st.
  exact (proj1 (proj2 (save_portrait_sanitized unit unit (fun _ => tt) st " Alpha? " tt
                         "assets/portraits") ltac:(discriminate))).
Defined.

End PortraitClaims.

(* ================================================================== *)
(** * Further properties of the code *)

(** ** [trim_after_big_gap] *)

Module TrimFacts.
Import Reader Shapes.

(** Facts of [str.rstrip] on Rocq strings, used for the sanitized stems
    of the portrait store. *)

Lemma str_app_assoc (a b c : string) : (a ++ b) ++ c = a ++ (b ++ c).
Proof. induction a as [|x a IH]; simpl; [reflexivity | rewrite IH; reflexivity]. Qed.

Lemma rstrip_prefix (s : string) : exists r, s = Py.rstrip s ++ r.
Proof.
  induction s as [|c s [r IH]]; simpl; [exists ""; reflexivity|].
  destruct (Py.rstrip s) as [|c' s'] eqn:E.
  - destruct (Py.isspace c); [exists (String c s); reflexivity|].
    exists r. simpl. rewrite IH. reflexivity.
  - exists r. simpl. rewrite IH. reflexivity.
Qed.

Lemma rstrip_last (x pre : string) c :
  Py.rstrip x = pre ++ String c "" -> Py.isspace c = false.
Proof.
  revert pre. induction x as [|d x IH]; intros pre E; simpl in E.
  - destruct pre; discriminate.
  - destruct (Py.rstrip x) as [|d' x'] eqn:Ex.
    + destruct (Py.isspace d) eqn:Hd; [destruct pre; discriminate|].
      destruct pre as [|e pre]; simpl in E.
      * inversion E; subst. exact Hd.
      * inversion E. destruct pre; discriminate.
    + destruct pre as [|e pre]; simpl in E.
      * inversion E as [[E1 E2]]. 
      * inversion E as [[E1 E2]]. apply (IH pre). exact E2.
Qed.

Lemma rstrip_noop (x : string) :
  (forall pre c, x = pre ++ String c "" -> Py.isspace c = false) -> Py.rstrip x = x.
Proof.
  induction x as [|c x IH]; intro H; simpl; [reflexivity|].
  rewrite IH.
  - destruct x as [|c' x'].
    + rewrite (H "" c eq_refl). reflexivity.
    + reflexivity.
  - intros pre d E. apply (H (String c pre) d). simpl. rewrite E. reflexivity.
Qed.

(** The same on code points. *)

Lemma rstrip_cp_prefix (s : list Z) : exists r, s = app (rstrip_cp s) r.
Proof.
  induction s as [|c s [r IH]]; simpl; [exists []; reflexivity|].
  destruct (rstrip_cp s) as [|c' s'] eqn:E.
  - destruct (isspace_cp c); [exists (c :: s); reflexivity|].
    exists r. simpl. rewrite IH. reflexivity.
  - exists r. simpl. rewrite IH. reflexivity.
Qed.

Lemma rstrip_cp_last (x pre : list Z) c :
  rstrip_cp x = app pre [c] -> isspace_cp c = false.
Proof.
  revert pre. induction x as [|d x IH]; intros pre E; simpl in E.
  - destruct pre; discriminate.
  - destruct (rstrip_cp x) as [|d' x'] eqn:Ex.
    + destruct (isspace_cp d) eqn:Hd; [destruct pre; discriminate|].
      destruct pre as [|e pre]; simpl in E.
      * inversion E; subst. exact Hd.
      * inversion E. destruct pre; discriminate.
    + destruct pre as [|e pre]; simpl in E.
      * inversion E as [[E1 E2]].
      * inversion E as [[E1 E2]]. apply (IH pre). exact E2.
Qed.

Lemma rstrip_cp_noop (x : list Z) :
  (forall pre c, x = app pre [c] -> isspace_cp c = false) -> rstrip_cp x = x.
Proof.
  induction x as [|c x IH]; intro H; simpl; [reflexivity|].
  rewrite IH.
  - destruct x as [|c' x'].
    + rewrite (H [] c eq_refl). reflexivity.
    + reflexivity.
  - intros pre d E. apply (H (c :: pre) d). simpl. rewrite E. reflexivity.
Qed.

Lemma rstrip_cp_spaces (q : list Z) :
  (forall c, In c q -> isspace_cp c = true) -> rstrip_cp q = [].
Proof.
  induction q as [|c q IH]; intro H; simpl; [reflexivity|].
  rewrite IH by (intros d Hd; apply H; right; exact Hd).
  rewrite (H c (or_introl eq_refl)). reflexivity.
Qed.

Lemma rstrip_cp_app_spaces (p q : list Z) :
  (forall c, In c q -> isspace_cp c = true) -> rstrip_cp (app p q) = rstrip_cp p.
Proof.
  intro H. induction p as [|c p IH]; simpl; [apply rstrip_cp_spaces, H|].
  rewrite IH. reflexivity.
Qed.

Lemma run_at_app n (x y : list Z) : run_at n x = true -> run_at n (app x y) = true.
Proof.
  revert x. induction n as [|n IH]; intros x H; [reflexivity|].
  destruct x as [|c x]; simpl in *; [discriminate|].
  apply andb_true_iff in H. destruct H as [H1 H2]. rewrite H1. simpl. apply IH, H2.
Qed.

Lemma has_run_app n (x y : list Z) : has_run n x -> has_run n (app x y).
Proof.
  intros (pre & post & E & H). exists pre, (app post y). split.
  - subst x. symmetry. apply app_assoc.
  - apply run_at_app, H.
Qed.

Lemma has_run_nil n : (1 <= n)%nat -> ~ has_run n [].
Proof.
  intros Hn (pre & post & E & H). destruct pre, post; try discriminate.
  destruct n; [lia | discriminate].
Qed.

Lemma dot_star_suffix (t : list Z) : exists p, t = app p (dot_star t).
Proof.
  induction t as [|c t [p IH]]; simpl; [exists []; reflexivity|].
  destruct (c =? 10)%Z; [exists []; reflexivity | exists (c :: p); simpl; rewrite <- IH; reflexivity].
Qed.

Lemma dot_star_no_nl (t : list Z) : ~ In 10%Z t -> dot_star t = [].
Proof.
  induction t as [|c t IH]; intro H; simpl; [reflexivity|].
  destruct (c =? 10)%Z eqn:E.
  - apply Z.eqb_eq in E. subst. exfalso. apply H. left. reflexivity.
  - apply IH. intro C. apply H. right. exact C.
Qed.

(** What the substitution leaves: the text before the leftmost match
    followed by what comes after the match (nothing or a final newline),
    or the whole text when nothing matches. *)
Lemma sub_gap_shape n (s : list Z) :
  (exists p q, s = app p q /\ match_at n q = true /\
     sub_gap n s = app p (dot_star (skipn n q))) \/ sub_gap n s = s.
Proof.
  induction s as [|c s IH]; simpl; [right; reflexivity|].
  destruct (match_at n (c :: s)) eqn:Hm.
  - left. exists [], (c :: s). auto.
  - destruct IH as [(p & q & E & Hq & Hs) | Hs].
    + left. exists (c :: p), q. subst s. rewrite Hs. auto.
    + right. rewrite Hs. reflexivity.
Qed.

Lemma sub_gap_rstrip n (s : list Z) :
  exists p r, s = app p r /\ rstrip_cp (sub_gap n s) = rstrip_cp p.
Proof.
  destruct (sub_gap_shape n s) as [(p & q & E & Hq & Hs) | Hs].
  - exists p, q. split; [exact E|]. rewrite Hs. apply rstrip_cp_app_spaces.
    unfold match_at in Hq. apply andb_true_iff in Hq. destruct Hq as [_ Hd].
    destruct (dot_star (skipn n q)) as [|c [|d l]]; simpl in Hd; try discriminate.
    + intros x [].
    + apply Z.eqb_eq in Hd. subst c. intros x [<-|[]]. reflexivity.
  - exists s, []. rewrite app_nil_r, Hs. split; reflexivity.
Qed.

Lemma sub_gap_prefix_no_nl n (s : list Z) :
  ~ In 10%Z s -> exists r, s = app (sub_gap n s) r.
Proof.
  intro Hs. destruct (sub_gap_shape n s) as [(p & q & E & Hq & Hg) | Hg].
  - exists q. rewrite Hg, dot_star_no_nl, app_nil_r; [exact E|].
    intro C. apply Hs. rewrite E. apply in_or_app. right.
    rewrite <- (firstn_skipn n q).
    apply in_or_app. right. exact C.
  - exists []. rewrite Hg, app_nil_r. reflexivity.
Qed.

Lemma sub_gap_no_run n (s : list Z) :
  (1 <= n)%nat -> ~ In 10%Z s -> ~ has_run n (sub_gap n s).
Proof.
  intros Hn. induction s as [|c s IH]; intro Hs; simpl; [apply has_run_nil, Hn|].
  destruct (match_at n (c :: s)) eqn:Hm.
  - rewrite dot_star_no_nl; [apply has_run_nil, Hn|].
    intro C. apply Hs. rewrite <- (firstn_skipn n (c :: s)).
    apply in_or_app. right. exact C.
  - assert (Hs' : ~ In 10%Z s) by (intro C; apply Hs; right; exact C).
    intros (pre & post & E & H). destruct pre as [|c' pre]; simpl in E.
    + subst post. destruct (sub_gap_prefix_no_nl n s Hs') as [r Er].
      assert (Hr : run_at n (c :: s) = true).
      { rewrite Er. change (c :: app (sub_gap n s) r) with (app (c :: sub_gap n s) r).
        apply run_at_app, H. }
      unfold match_at in Hm. rewrite Hr, dot_star_no_nl in Hm; [discriminate|].
      intro C. apply Hs. rewrite <- (firstn_skipn n (c :: s)).
      apply in_or_app. right. exact C.
    + inversion E as [[E1 E2]]. apply (IH Hs'). exists pre, post. split; [exact E2 | exact H].
Qed.

Lemma sub_gap_noop n (x : list Z) : ~ has_run n x -> sub_gap n x = x.
Proof.
  induction x as [|c x IH]; intro H; simpl; [reflexivity|].
  destruct (match_at n (c :: x)) eqn:Hm.
  - exfalso. apply H. exists [], (c :: x). split; [reflexivity|].
    unfold match_at in Hm. apply andb_true_iff in Hm. apply Hm.
  - rewrite IH; [reflexivity|].
    intros (pre & post & E & Hp). apply H. exists (c :: pre), post.
    split; [simpl; rewrite E; reflexivity | exact Hp].
Qed.

Lemma filter_id_cp (f : Z -> bool) (l : list Z) :
  (forall x, In x l -> f x = true) -> filter f l = l.
Proof.
  induction l as [|x l IH]; intro H; simpl; [reflexivity|].
  rewrite (H x (or_introl eq_refl)), IH; [reflexivity|].
  intros y Hy. apply H. right. exact Hy.
Qed.

(** [trim_after_big_gap] drops U+200B and U+FEFF and otherwise only cuts:
    its result is a prefix of its input with those characters removed, and
    it ends in no whitespace. On a text without a newline (every line
    [read_once] passes it is one) and for [min_run >= 1], it leaves no run
    of [min_run] space-like characters, and applying it twice is applying
    it once. *)
Theorem trim_after_big_gap_spec (s : list Z) (min_run : nat) :
  let s' := filter (fun c => negb (c =? 65279)%Z) (filter (fun c => negb (c =? 8203)%Z) s) in
  let r := trim_after_big_gap_cp s min_run in
  (exists rest, s' = app r rest) /\
  (forall pre c, r = app pre [c] -> isspace_cp c = false) /\
  (~ In 10%Z s -> (1 <= min_run)%nat ->
     ~ has_run min_run r /\ trim_after_big_gap_cp r min_run = r).
Proof.
  intros s' r.
  assert (P : exists rest, s' = app r rest).
  { unfold r, trim_after_big_gap_cp. destruct s as [|c t]; [exists []; reflexivity|].
    fold s'. destruct (sub_gap_rstrip min_run s') as (p & q & E & Hr).
    rewrite Hr. destruct (rstrip_cp_prefix p) as [r1 E1].
    exists (app r1 q). rewrite E, E1 at 1. symmetry. apply app_assoc. }
  assert (L : forall pre c, r = app pre [c] -> isspace_cp c = false).
  { unfold r, trim_after_big_gap_cp. destruct s as [|c t].
    - intros pre c E. destruct pre; discriminate.
    - apply rstrip_cp_last. }
  split; [exact P|]. split; [exact L|].
  intros Hs Hn.
  assert (Hs' : ~ In 10%Z s').
  { intro C. apply Hs. unfold s' in C. apply filter_In in C. destruct C as [C _].
    apply filter_In in C. apply C. }
  assert (NR : ~ has_run min_run r).
  { unfold r, trim_after_big_gap_cp. destruct s as [|c t]; [apply has_run_nil, Hn|].
    fold s'. intro Hr. apply (sub_gap_no_run min_run s' Hn Hs').
    destruct (rstrip_cp_prefix (sub_gap min_run s')) as [r1 E].
    rewrite E. apply has_run_app, Hr. }
  split; [exact NR|].
  destruct P as [rest Er].
  assert (Hin : forall x, In x r -> In x s').
  { intros x Hx. rewrite Er. apply in_or_app. left. exact Hx. }
  remember r as u eqn:Eu. unfold trim_after_big_gap_cp at 1. destruct u as [|c u']; [reflexivity|].
  rewrite (filter_id_cp _ (c :: u')).
  2:{ intros x Hx. apply Hin in Hx. unfold s' in Hx. apply filter_In in Hx.
      destruct Hx as [Hx _]. apply filter_In in Hx. apply Hx. }
  rewrite (filter_id_cp _ (c :: u')).
  2:{ intros x Hx. apply Hin in Hx. unfold s' in Hx. apply filter_In in Hx. apply Hx. }
  rewrite (sub_gap_noop _ _ NR). apply rstrip_cp_noop, L.
Qed.

(** An OCR line with a zero-width space and a gap before trailing noise. *)
Lemma trim_after_big_gap_spec_witness :
  let s := [83%Z; 8203%Z; 32%Z; 32%Z; 32%Z; 32%Z; 120%Z] in
  ~ In 10%Z s /\ (1 <= 4)%nat /\
  trim_after_big_gap_cp (trim_after_big_gap_cp s 4) 4 = trim_after_big_gap_cp s 4.
Proof.
  intro s.
  assert (H1 : ~ In 10%Z s) by (simpl; intuition discriminate).
  assert (H2 : (1 <= 4)%nat) by lia.
  split; [exact H1 | split; [exact H2|]].
  exact (proj2 (proj2 (proj2 (trim_after_big_gap_spec s 4)) H1 H2)).
Defined.

End TrimFacts.

(** ** The streak trackers along the tick loop *)

Module GateFacts.
Import Reader Shapes ReaderSpec GateClaims.

Lemma trainee_key_ne e : ("trainee|" ++ e)%string <> "".
Proof. discriminate. Qed.

Lemma on_hit_wf g name e :
  gate_wf g -> gate_wf (fst (on_hit g name ("trainee|" ++ e))).
Proof.
  intros (H1 & H2 & H3). unfold on_hit, PORTRAIT_REQUIRE_HITS.
  destruct (Py.opt_eqb (current_candidate g) (Some name)) eqn:E.
  - apply opt_eqb_some in E. rewrite E.
    destruct (2 <=? S (candidate_hits g))%nat; simpl;
      (split; [split; intro; discriminate|]); auto.
    split; [right; exists e; reflexivity | intros _; discriminate].
  - destruct (2 <=? 1)%nat eqn:E2; [discriminate|]. simpl.
    split; [split; intro; discriminate|]. auto.
Qed.

Lemma count_miss_wf g e :
  gate_wf g -> gate_wf (count_miss g ("trainee|" ++ e)).
Proof.
  intros (H1 & H2 & H3). unfold count_miss.
  destruct (negb (("trainee|" ++ e) =? last_key g)%string) eqn:E; simpl.
  - split; [exact H1|]. split; [right; exists e; reflexivity | intros _; discriminate].
  - apply negb_false_iff, String.eqb_eq in E. rewrite <- E.
    split; [exact H1|]. split; [right; exists e; reflexivity | intros _; discriminate].
Qed.

Lemma on_miss_wf g e now selected save :
  gate_wf g ->
  gate_wf (fst (fst (fst (on_miss g ("trainee|" ++ e) now selected save)))).
Proof.
  intro Hw. pose proof (count_miss_wf g e Hw) as (H1 & H2 & H3).
  unfold on_miss. cbv zeta.
  match goal with
  | |- context [if ?c then _ else _] => destruct c
  end.
  - destruct selected as [sel|]; [destruct (Py.truthy sel); [destruct save|]|]; simpl.
    + split; [split; reflexivity|]. split; [exact H2 | intro C; exfalso; apply C; reflexivity].
    + split; [exact H1 | split; [exact H2 | exact H3]].
    + split; [exact H1 | split; [exact H2 | exact H3]].
    + split; [exact H1 | split; [exact H2 | exact H3]].
  - simpl. split; [exact H1 | split; [exact H2 | exact H3]].
Qed.

Lemma read_once_wf g t : gate_wf g -> gate_wf (next_gate (read_once g t)).
Proof.
  intro Hw. unfold read_once.
  destruct (tick_lines t) as [|l0 [|l1 rest]]; [exact Hw | exact Hw|]. cbv zeta.
  assert (Hr : gate_wf (reset_portrait_gating g)).
  { split; [split; reflexivity|]. split; [left; reflexivity|].
    intro C; exfalso; apply C; reflexivity. }
  destruct (Py.contains "trainee" (Py.lower l0)).
  - destruct (tick_detect t) as [d|]; [|exact Hw].
    destruct (Py.truthy d) as [name|].
    + pose proof (on_hit_wf g name (trim_after_big_gap l1 4) Hw) as W.
      destruct (on_hit g name _) as [g' det]. exact W.
    + destruct (Py.contains "trainee event" (Py.lower l0)); [|exact Hr].
      pose proof (on_miss_wf g (trim_after_big_gap l1 4) (tick_now t) (tick_selected t)
                    (tick_save t) Hw) as W.
      destruct (on_miss g _ _ _ _) as [[[g' det] pr] sv]. exact W.
  - destruct (Py.contains "support" (Py.lower l0)); [exact Hr | exact Hw].
Qed.

(** Invariant of the streak trackers: from module load, after any sequence
    of ticks, a candidate is held exactly when its hit count is positive,
    [_last_key] is empty or a ["trainee|"] key, and it is not empty while
    the miss counter is positive. *)
Theorem gate_wf_run (ts : list Tick) : gate_wf (fst (run initial_gate ts)).
Proof.
  assert (G : forall g, gate_wf g -> gate_wf (fst (run g ts))).
  { induction ts as [|t ts IH]; intros g Hw; simpl; [exact Hw|].
    specialize (IH _ (read_once_wf g t Hw)).
    destruct (run (next_gate (read_once g t)) ts). exact IH. }
  apply G. split; [split; reflexivity|]. split; [left; reflexivity|].
  intro C; exfalso; apply C; reflexivity.
Qed.

(** Whatever the clock returns (even a clock set back), the recorded prompt
    time never decreases along the tick loop. *)
Theorem last_prompt_time_monotone (g : GateState) (ts : list Tick) :
  (last_prompt_time g <= last_prompt_time (fst (run g ts)))%Z.
Proof.
  revert g. induction ts as [|t ts IH]; intro g; simpl; [lia|].
  pose proof (read_once_prompt_time g t) as [E P]. cbv zeta in E, P.
  specialize (IH (next_gate (read_once g t))).
  destruct (run (next_gate (read_once g t)) ts) as [gf rs]. simpl in *.
  destruct (prompted (read_once g t)).
  - specialize (P eq_refl). unfold PROMPT_COOLDOWN_MS in P. lia.
  - lia.
Qed.

Lemma truthy_ne o n : Py.truthy o = Some n -> n <> "".
Proof. destruct o as [[|c s]|]; simpl; intro H; inversion H; discriminate. Qed.

Lemma truthy_some o n : Py.truthy o = Some n -> o = Some n.
Proof. destruct o as [[|c s]|]; simpl; intro H; inversion H; reflexivity. Qed.

(** A tick reports a character to [find_best_match] only in two ways: the
    identifier returned that non-empty name on this tick and it reached a
    streak of at least [PORTRAIT_REQUIRE_HITS] (the miss counter is then
    zero and no prompt or save happens); or the prompt branch was taken,
    the prompt returned that non-empty name and [save_portrait] was called
    with it. When the save returns, the streak and the miss counter are
    cleared; when it raises, the [except] swallows the error, the name is
    still reported, and the streak and the miss counter (at least
    [PORTRAIT_REQUIRE_MISSES]) stay as the miss left them. Either way the
    prompt time is the tick's time. *)
Theorem detected_provenance (g : GateState) (t : Tick) n :
  detected_of (read_once g t) = Some n ->
  let r := read_once g t in
  n <> "" /\
  ((prompted r = false /\ saved r = None /\ identified t = Some n /\
    current_candidate (next_gate r) = Some n /\
    (2 <= candidate_hits (next_gate r))%nat /\
    consecutive_misses (next_gate r) = 0%nat) \/
   (prompted r = true /\ saved r = Some n /\
    tick_selected t = Returns (Some n) /\
    last_prompt_time (next_gate r) = tick_now t /\
    (tick_save t = Returns tt ->
     current_candidate (next_gate r) = None /\
     candidate_hits (next_gate r) = 0%nat /\
     consecutive_misses (next_gate r) = 0%nat) /\
    (tick_save t = Raises ->
     current_candidate (next_gate r) = current_candidate g /\
     candidate_hits (next_gate r) = candidate_hits g /\
     (2 <= consecutive_misses (next_gate r))%nat))).
Proof.
  unfold read_once, detected_of.
  destruct (tick_lines t) as [|l0 [|l1 rest]]; try (simpl; discriminate).
  cbv zeta.
  destruct (Py.contains "trainee" (Py.lower l0)).
  - destruct (tick_detect t) as [d|] eqn:Ed; [|simpl; discriminate].
    destruct (Py.truthy d) as [name|] eqn:Hd.
    + assert (Hi : identified t = Some name) by (unfold identified; rewrite Ed; exact Hd).
      unfold on_hit, PORTRAIT_REQUIRE_HITS.
      destruct (Py.opt_eqb (current_candidate g) (Some name)) eqn:E.
      * apply opt_eqb_some in E. rewrite E.
        destruct (2 <=? S (candidate_hits g))%nat eqn:H2; simpl; intro Hn; [|discriminate].
        inversion Hn; subst. split; [apply (truthy_ne _ _ Hd)|].
        left. apply Nat.leb_le in H2. auto 7.
      * destruct (2 <=? 1)%nat eqn:H2; simpl; intro Hn; discriminate.
    + destruct (Py.contains "trainee event" (Py.lower l0)); [|simpl; discriminate].
      unfold on_miss. cbv zeta.
      assert (K : current_candidate (count_miss g ("trainee|" ++ trim_after_big_gap l1 4))
                  = current_candidate g /\
                  candidate_hits (count_miss g ("trainee|" ++ trim_after_big_gap l1 4))
                  = candidate_hits g)
        by (unfold count_miss; destruct (negb _); split; reflexivity).
      destruct K as [K1 K2].
      match goal with
      | |- context [if ?c then _ else _] => destruct c eqn:C
      end; [|simpl; discriminate].
      apply andb_true_iff in C. destruct C as [C _]. apply Nat.leb_le in C.
      destruct (tick_selected t) as [sel|] eqn:Es; [|simpl; discriminate].
      destruct (Py.truthy sel) as [x|] eqn:Hx; [|simpl; discriminate].
      rewrite (truthy_some _ _ Hx).
      destruct (tick_save t) as [[]|]; simpl; intro Hn; inversion Hn; subst;
        (split; [apply (truthy_ne _ _ Hx)|]); right;
        (split; [reflexivity|]); (split; [reflexivity|]); (split; [reflexivity|]);
        (split; [reflexivity|]); split; intro Hsv; try discriminate; auto.
  - destruct (Py.contains "support" (Py.lower l0)); simpl; discriminate.
Qed.

(** A label whose save raises: the name still reaches [find_best_match]. *)
Lemma detected_provenance_witness :
  let g := mkGate None 0 1 "trainee|Tracen Lunch" 0 in
  let t := mkTick ["Trainee Event"; "Tracen Lunch"] (Returns None) 100000
             (Returns (Some "Oguri Cap")) Raises in
  detected_of (read_once g t) = Some "Oguri Cap" /\
  (2 <= consecutive_misses (next_gate (read_once g t)))%nat.
Proof.
  cbv zeta.
  assert (H : detected_of (read_once (mkGate None 0 1 "trainee|Tracen Lunch" 0)
     (mkTick ["Trainee Event"; "Tracen Lunch"] (Returns None) 100000
        (Returns (Some "Oguri Cap")) Raises)) = Some "Oguri Cap") by reflexivity.
  split; [exact H|].
  destruct (proj2 (detected_provenance _ _ _ H)) as [(Hp & _) | (_ & _ & _ & _ & _ & R)].
  - discriminate Hp.
  - exact (proj2 (proj2 (R eq_refl))).
Defined.

End GateFacts.

(** ** [find_best_match] and [get_close_matches] *)

Module EventFacts.
Import Events EventClaims.

Lemma dict_get_in_keys {A} (k : string) (d : list (string * A)) :
  In k (map fst d) -> exists v, dict_get k d = Some v.
Proof.
  induction d as [|[k' v] d IH]; simpl; [tauto|]. intros [E|H].
  - subst. rewrite String.eqb_refl. exists v. reflexivity.
  - destruct (String.eqb k k'); [exists v; reflexivity | apply IH, H].
Qed.

Lemma get_close_matches_shape rqr qr ratio word cands cutoff res :
  get_close_matches rqr qr ratio word cands cutoff = Ok res ->
  res = [] \/ exists x, res = [x] /\ In x cands.
Proof.
  unfold get_close_matches.
  destruct (negb (Qle_bool 0 cutoff && Qle_bool cutoff 1)); [discriminate|].
  destruct (py_max _) as [[q y]|] eqn:Hm; intro E; inversion E; subst; [|left; reflexivity].
  right. exists y. split; [reflexivity|].
  apply py_max_in, in_map_iff in Hm. destruct Hm as [x' [Ex Hin]]. inversion Ex; subst.
  apply filter_In in Hin. exact (proj1 Hin).
Qed.

Lemma match_in_result rqr qr ratio line confidence m :
  (forall e, match_in rqr qr ratio line confidence m = Raised e -> e = ValueError) /\
  (forall a b, match_in rqr qr ratio line confidence m = Ok (a, b) ->
     (a = None /\ b = None) \/
     exists name opts, a = Some name /\ b = Some opts /\ dict_get name m = Some opts).
Proof.
  unfold match_in. destruct m as [|p m'].
  { split; [discriminate | intros a b E; inversion E; left; split; reflexivity]. }
  remember (p :: m') as m eqn:Hm.
  destruct (get_close_matches rqr qr ratio line (map fst m) (effective_cutoff line confidence))
    as [res|e'] eqn:G; simpl.
  - destruct (get_close_matches_shape _ _ _ _ _ _ _ G) as [E | [x [E Hin]]]; subst res.
    + split; [discriminate | intros a b E; inversion E; left; split; reflexivity].
    + destruct (dict_get_in_keys x m Hin) as [v Hv]. rewrite Hv.
      split; [discriminate|]. intros a b E. inversion E; subst.
      right. exists x, v. auto.
  - unfold get_close_matches in G.
    destruct (negb _); [|destruct (py_max _) as [[? ?]|]; discriminate].
    inversion G; subst. split; [intros e E; inversion E; reflexivity | discriminate].
Qed.

(** [find_best_match] raises nothing of its own but the [ValueError] of
    [get_close_matches] (never a [KeyError] on the chosen name); on
    success it returns [(None, None)], or a name that is a key of the
    candidate map it built together with that key's options. *)
Theorem find_best_match_result rqr qr ratio load by_char line category
    character_name confidence :
  (forall e,
     find_best_match rqr qr ratio load by_char line category character_name confidence
       = Raised e ->
     candidates_for load by_char category character_name = Raised e \/ e = ValueError) /\
  (forall a b,
     find_best_match rqr qr ratio load by_char line category character_name confidence
       = Ok (a, b) ->
     (a = None /\ b = None) \/
     exists m name opts, candidates_for load by_char category character_name = Ok m /\
       a = Some name /\ b = Some opts /\ dict_get name m = Some opts).
Proof.
  unfold find_best_match.
  destruct (Nat.ltb (String.length line) 4).
  { split; [discriminate | intros a b E; inversion E; left; split; reflexivity]. }
  destruct (candidates_for load by_char category character_name) as [m|e0]; simpl.
  - destruct (match_in_result rqr qr ratio line confidence m) as [R O]. split.
    + intros e E. right. apply R, E.
    + intros a b E. destruct (O a b E) as [N | (name & opts & H)]; [left; exact N|].
      right. exists m, name, opts. split; [reflexivity | exact H].
  - split; [intros e E; left; inversion E; reflexivity | discriminate].
Qed.

Lemma find_best_match_result_witness :
  let ev : EventMap := [("Tracen Lunch", [("Top", "Speed +10")])] in
  let exact (x w : string) : Q := if String.eqb x w then 1#1 else 0#1 in
  find_best_match exact exact exact (fun _ => Ok ev) [] "Tracen Lunch" "support" None (7#10)
    = Ok (Some "Tracen Lunch", Some [("Top", "Speed +10")]) /\
  dict_get "Tracen Lunch" ev = Some [("Top", "Speed +10")].
Proof.
  cbv zeta.
  assert (E : find_best_match (fun x w => if String.eqb x w then 1#1 else 0#1)
    (fun x w => if String.eqb x w then 1#1 else 0#1)
    (fun x w => if String.eqb x w then 1#1 else 0#1)
    (fun _ => Ok [("Tracen Lunch", [("Top", "Speed +10")])]) [] "Tracen Lunch" "support"
    None (7#10) = Ok (Some "Tracen Lunch", Some [("Top", "Speed +10")])) by reflexivity.
  split; [exact E|].
  destruct (proj2 (find_best_match_result _ _ _ _ _ _ _ _ _) _ _ E)
    as [[N _] | (m & name & opts & Hc & Ha & Hb & Hg)]; [discriminate|].
  inversion Hc; subst m. inversion Ha; subst name. inversion Hb; subst opts. exact Hg.
Defined.

Lemma get_close_matches_raises rqr qr ratio word cands cutoff :
  get_close_matches rqr qr ratio word cands cutoff = Raised ValueError <->
  ~ (0 <= cutoff /\ cutoff <= 1)%Q.
Proof.
  unfold get_close_matches.
  destruct (Qle_bool 0 cutoff) eqn:E0; destruct (Qle_bool cutoff 1) eqn:E1; simpl;
    rewrite ?Qle_bool_iff in *.
  - destruct (py_max _) as [[? ?]|]; split; try discriminate; intro C; exfalso; tauto.
  - split; [intros _ [_ C]; apply Qle_bool_iff in C; congruence | reflexivity].
  - split; [intros _ [C _]; apply Qle_bool_iff in C; congruence | reflexivity].
  - split; [intros _ [C _]; apply Qle_bool_iff in C; congruence | reflexivity].
Qed.

(** With an event line of at least 4 characters and a non-empty candidate
    map, and a finite [confidence] (the model's confidence is a rational,
    so a NaN confidence is out of its scope), [find_best_match] raises
    [ValueError] exactly when the cutoff it
    passes to [get_close_matches] leaves [0, 1]: for a line without an
    ambiguous phrase, exactly when [confidence] is outside [0, 1]; for a
    line with one, exactly when [confidence > 1] (a negative confidence is
    then lifted to 0.95 and does not raise). *)
Theorem find_best_match_value_error rqr qr ratio load by_char line category
    character_name confidence m :
  (4 <= String.length line)%nat ->
  candidates_for load by_char category character_name = Ok m ->
  m <> [] ->
  (existsb (fun s => Py.contains s (Py.lower line)) AMBIGUOUS = false ->
   (find_best_match rqr qr ratio load by_char line category character_name confidence
      = Raised ValueError <-> ~ (0 <= confidence /\ confidence <= 1)%Q)) /\
  (existsb (fun s => Py.contains s (Py.lower line)) AMBIGUOUS = true ->
   (find_best_match rqr qr ratio load by_char line category character_name confidence
      = Raised ValueError <-> (1 < confidence)%Q)).
Proof.
  intros Hl Hc Hm.
  assert (F : find_best_match rqr qr ratio load by_char line category character_name confidence
              = Raised ValueError <->
              ~ (0 <= effective_cutoff line confidence /\ effective_cutoff line confidence <= 1)%Q).
  { unfold find_best_match. destruct (Nat.ltb (String.length line) 4) eqn:L.
    { apply Nat.ltb_lt in L. lia. }
    rewrite Hc. cbn [bind]. unfold match_in. destruct m as [|p m']; [congruence|].
    rewrite <- (get_close_matches_raises rqr qr ratio line (map fst (p :: m'))).
    destruct (get_close_matches _ _ _ _ _ _) as [res|e] eqn:G; cbn [bind].
    - destruct (get_close_matches_shape _ _ _ _ _ _ _ G) as [E | [x [E Hin]]]; subst res.
      + split; discriminate.
      + destruct (dict_get_in_keys x (p :: m') Hin) as [v Hv]. rewrite Hv. split; discriminate.
    - assert (e = ValueError).
      { unfold get_close_matches in G. destruct (negb _);
          [inversion G; reflexivity | destruct (py_max _) as [[? ?]|]; discriminate]. }
      subst e. split; intros _; reflexivity. }
  split; intro A; rewrite F; unfold effective_cutoff; rewrite A.
  - reflexivity.
  - destruct (Qle_bool AMBIGUOUS_CUTOFF confidence) eqn:E.
    + apply Qle_bool_iff in E. unfold AMBIGUOUS_CUTOFF in E. split.
      * intro N. apply Qnot_le_lt. intro C. apply N. split; [|exact C].
        apply Qle_trans with (95#100); [discriminate | exact E].
      * intros C [_ D]. apply (Qlt_not_le _ _ C D).
    + assert (L : (confidence < 95#100)%Q).
      { apply Qnot_le_lt. intro C. apply Qle_bool_iff in C. unfold AMBIGUOUS_CUTOFF in E. congruence. }
      split.
      * intro N. exfalso. apply N. split; discriminate.
      * intro C. exfalso. apply (Qlt_not_le _ _ (Qlt_trans _ _ _ C L)). discriminate.
Qed.

Lemma find_best_match_value_error_witness :
  let ev : EventMap := [("Summer Camp", [("Top", "Guts +10")])] in
  let exact (x w : string) : Q := if String.eqb x w then 1#1 else 0#1 in
  (find_best_match exact exact exact (fun _ => Ok ev) [] "Summer Camp" "support" None (-1#1)
     = Raised ValueError <-> (1 < -1#1)%Q).
Proof.
  cbv zeta.
  refine (proj2 (find_best_match_value_error _ _ _ _ _ _ "support" None (-1#1)
    [("Summer Camp", [("Top", "Guts +10")])] _ _ _) _).
  - vm_compute. lia.
  - reflexivity.
  - discriminate.
  - reflexivity.
Defined.

Lemma tuple_gt_refl (p : Q * string) : tuple_gt p p = false.
Proof.
  unfold tuple_gt. rewrite (proj2 (Qle_bool_iff _ _) (Qle_refl _)).
  pose proof (String.compare_antisym (snd p) (snd p)) as A.
  destruct (String.compare (snd p) (snd p)); try discriminate; apply andb_false_r.
Qed.

Lemma tuple_gt_lower (y p : Q * string) : (fst y < fst p)%Q -> tuple_gt y p = false.
Proof.
  intro H. unfold tuple_gt.
  rewrite (proj2 (Qle_bool_iff _ _) (Qlt_le_weak _ _ H)).
  destruct (Qeq_bool (fst y) (fst p)) eqn:E; [|reflexivity].
  apply Qeq_bool_iff in E. exfalso. apply (Qlt_not_eq _ _ H E).
Qed.

Lemma tuple_gt_higher (y m : Q * string) : (fst m < fst y)%Q -> tuple_gt y m = true.
Proof.
  intro H. unfold tuple_gt.
  destruct (Qle_bool (fst y) (fst m)) eqn:E; [|reflexivity].
  apply Qle_bool_iff in E. exfalso. apply (Qlt_not_le _ _ H E).
Qed.

Lemma py_max_fold_top (l : list (Q * string)) acc p :
  (forall y, In y l -> y = p \/ (fst y < fst p)%Q) ->
  (acc = None \/ acc = Some p \/ exists m, acc = Some m /\ (fst m < fst p)%Q) ->
  (In p l \/ acc = Some p) ->
  fold_left (fun acc y =>
               match acc with
               | None => Some y
               | Some m => if tuple_gt y m then Some y else Some m
               end) l acc = Some p.
Proof.
  revert acc. induction l as [|y l IH]; intros acc Hl Ha Hp; simpl.
  - destruct Hp as [[]|Hp]. exact Hp.
  - apply IH.
    + intros z Hz. apply Hl. right. exact Hz.
    + destruct (Hl y (or_introl eq_refl)) as [E|L].
      * subst y. right; left.
        destruct Ha as [E|[E|(m & E & L)]]; subst acc; [reflexivity | |].
        -- rewrite tuple_gt_refl. reflexivity.
        -- rewrite (tuple_gt_higher p m L). reflexivity.
      * destruct Ha as [E|[E|(m & E & L')]]; subst acc.
        -- right; right. exists y. split; [reflexivity | exact L].
        -- rewrite (tuple_gt_lower y p L). right; left; reflexivity.
        -- right; right. destruct (tuple_gt y m); [exists y | exists m]; split; auto.
    + destruct Hp as [[E|Hp]|E].
      * subst y. right.
        destruct Ha as [E|[E|(m & E & L)]]; subst acc; [reflexivity | |].
        -- rewrite tuple_gt_refl. reflexivity.
        -- rewrite (tuple_gt_higher p m L). reflexivity.
      * left. exact Hp.
      * subst acc. right.
        destruct (Hl y (or_introl eq_refl)) as [E|L].
        -- subst y. rewrite tuple_gt_refl. reflexivity.
        -- rewrite (tuple_gt_lower y p L). reflexivity.
Qed.

(** An event title read exactly is found. Given the facts of
    [difflib.SequenceMatcher] that [ratio] is at most 1, equals 1 only on
    identical strings (and does on the line itself), and is bounded by
    [quick_ratio] and [real_quick_ratio]: when the event line (at least 4
    characters) is a key of the candidate map and [0 <= confidence <= 1],
    [find_best_match] returns that key and its options, whatever the other
    candidates and whatever ambiguous phrase the line holds. *)
Theorem exact_title_match rqr qr ratio load by_char line category
    character_name confidence m :
  (forall x w, ratio x w <= 1)%Q ->
  (forall x w, ratio x w == 1 -> x = w)%Q ->
  (ratio line line == 1)%Q ->
  (forall x w, ratio x w <= qr x w)%Q ->
  (forall x w, ratio x w <= rqr x w)%Q ->
  (0 <= confidence /\ confidence <= 1)%Q ->
  (4 <= String.length line)%nat ->
  candidates_for load by_char category character_name = Ok m ->
  In line (map fst m) ->
  exists opts, dict_get line m = Some opts /\
  find_best_match rqr qr ratio load by_char line category character_name confidence
    = Ok (Some line, Some opts).
Proof.
  intros Hle1 Huniq Hself Hqr Hrqr [C0 C1] Hl Hc Hin.
  destruct (dict_get_in_keys line m Hin) as [opts Ho]. exists opts. split; [exact Ho|].
  set (c := effective_cutoff line confidence).
  assert (Hcut : (0 <= c /\ c <= 1)%Q).
  { unfold c, effective_cutoff.
    destruct (existsb _ AMBIGUOUS); [|split; assumption].
    destruct (Qle_bool AMBIGUOUS_CUTOFF confidence); [split; assumption|].
    unfold AMBIGUOUS_CUTOFF. split; discriminate. }
  assert (Hc1 : (c <= ratio line line)%Q) by (rewrite Hself; apply Hcut).
  assert (G : get_close_matches rqr qr ratio line (map fst m) c = Ok [line]).
  { unfold get_close_matches.
    rewrite (proj2 (Qle_bool_iff _ _) (proj1 Hcut)), (proj2 (Qle_bool_iff _ _) (proj2 Hcut)).
    simpl.
    set (p := (ratio line line, line)).
    set (keep := fun x => Qle_bool c (rqr x line) && Qle_bool c (qr x line)
                          && Qle_bool c (ratio x line)).
    assert (Hk : keep line = true).
    { unfold keep. rewrite !(proj2 (Qle_bool_iff _ _)); [reflexivity | exact Hc1 | |].
      - apply Qle_trans with (ratio line line); [exact Hc1 | apply Hqr].
      - apply Qle_trans with (ratio line line); [exact Hc1 | apply Hrqr]. }
    assert (Hp : py_max (map (fun x => (ratio x line, x)) (filter keep (map fst m))) = Some p).
    { unfold py_max. apply py_max_fold_top.
      - intros y Hy. apply in_map_iff in Hy. destruct Hy as [x [Ey _]]. subst y.
        destruct (String.eqb x line) eqn:Ex.
        + apply String.eqb_eq in Ex. subst x. left. reflexivity.
        + right. simpl. rewrite Hself.
          destruct (Qle_lt_or_eq _ _ (Hle1 x line)) as [L|E]; [exact L|].
          apply Huniq in E. apply String.eqb_neq in Ex. contradiction.
      - left. reflexivity.
      - left. apply in_map_iff. exists line. split; [reflexivity|].
        apply filter_In. split; [exact Hin | exact Hk]. }
    rewrite Hp. reflexivity. }
  unfold find_best_match.
  destruct (Nat.ltb (String.length line) 4) eqn:L; [apply Nat.ltb_lt in L; lia|].
  rewrite Hc. cbn [bind]. unfold match_in.
  destruct m as [|q m']; [destruct Hin|].
  fold c. rewrite G. cbn [bind]. rewrite Ho. reflexivity.
Qed.

Lemma exact_title_match_witness :
  let ev : EventMap := [("Summer Camp (Year 2)", [("Top", "Guts +10")]);
                        ("Summer Camp (Year 3)", [("Top", "Wit +10")])] in
  let exact (x w : string) : Q := if String.eqb x w then 1#1 else 0#1 in
  exists opts, dict_get "Summer Camp (Year 3)" ev = Some opts /\
  find_best_match exact exact exact (fun _ => Ok ev) [] "Summer Camp (Year 3)"
    "support" None (7#10) = Ok (Some "Summer Camp (Year 3)", Some opts).
Proof.
  cbv zeta.
  apply (exact_title_match _ _ _ (fun _ => Ok [("Summer Camp (Year 2)", [("Top", "Guts +10")]);
                        ("Summer Camp (Year 3)", [("Top", "Wit +10")])]) [] _ "support" None (7#10)).
  - intros x w. destruct (String.eqb x w); discriminate.
  - intros x w. destruct (String.eqb x w) eqn:E; [intros _; apply String.eqb_eq, E|].
    intro H. vm_compute in H. discriminate.
  - reflexivity.
  - intros x w. apply Qle_refl.
  - intros x w. apply Qle_refl.
  - split; discriminate.
  - vm_compute. lia.
  - reflexivity.
  - simpl. right. left. reflexivity.
Defined.

(** A character whose per-character entry is an empty map gets no match at
    all: with the name's entry absent or empty and the stripped name's entry
    empty, [find_best_match] on a "trainee" line returns [(None, None)]
    without consulting the global "trainee" events. *)
Theorem empty_character_map_no_match rqr qr ratio load
    (by_char : list (string * EventMap)) line name confidence :
  Py.truthy (Some name) = Some name ->
  (dict_get name by_char = None \/ dict_get name by_char = Some []) ->
  dict_get (Py.strip name) by_char = Some [] ->
  find_best_match rqr qr ratio load by_char line "trainee" (Some name) confidence
    = Ok (None, None).
Proof.
  intros Ht Hn Hs. unfold find_best_match.
  destruct (Nat.ltb (String.length line) 4); [reflexivity|].
  unfold candidates_for. rewrite String.eqb_refl. rewrite Ht.
  destruct Hn as [Hn|Hn]; rewrite Hn, Hs; reflexivity.
Qed.

Lemma empty_character_map_no_match_witness :
  let global : EventMap := [("Tracen Lunch", [("Top", "Speed +10")])] in
  let exact (x w : string) : Q := if String.eqb x w then 1#1 else 0#1 in
  find_best_match exact exact exact (fun _ => Ok global) [("Oguri Cap", [])]
    "Tracen Lunch" "trainee" (Some "Oguri Cap") (7#10) = Ok (None, None).
Proof.
  cbv zeta. apply empty_character_map_no_match.
  - reflexivity.
  - right. reflexivity.
  - reflexivity.
Defined.

End EventFacts.

(** ** [load_events_by_char] *)

Module ByCharFacts.
Import Events ByChar Shapes.

Lemma strings_eqb_eq (a b : list string) : strings_eqb a b = true <-> a = b.
Proof.
  revert b. induction a as [|x a IH]; intros [|y b]; simpl; split; intro H;
    try discriminate; try reflexivity.
  - apply andb_true_iff in H. destruct H as [H1 H2].
    apply String.eqb_eq in H1. apply IH in H2. subst. reflexivity.
  - inversion H; subst. rewrite String.eqb_refl. apply IH. reflexivity.
Qed.

Lemma key_eqb_eq (a b : CacheKey) : key_eqb a b = true <-> a = b.
Proof.
  destruct a as [a1 a2], b as [b1 b2]. unfold key_eqb. simpl.
  rewrite andb_true_iff, String.eqb_eq, strings_eqb_eq.
  split; [intros [-> ->]; reflexivity | intro H; inversion H; split; reflexivity].
Qed.

Lemma cache_get_set_same k v c : cache_get k (cache_set k v c) = Some v.
Proof.
  induction c as [|[k' v'] c IH]; simpl.
  - rewrite (proj2 (key_eqb_eq k k) eq_refl). reflexivity.
  - destruct (key_eqb k k') eqn:E; simpl; rewrite ?E; [reflexivity | exact IH].
Qed.

Lemma cache_get_set_other k k'' v c :
  k'' <> k -> cache_get k'' (cache_set k v c) = cache_get k'' c.
Proof.
  intro Hne. induction c as [|[k' v'] c IH]; simpl.
  - destruct (key_eqb k'' k) eqn:E; [apply key_eqb_eq in E; contradiction | reflexivity].
  - destruct (key_eqb k k') eqn:E; simpl.
    + apply key_eqb_eq in E. subst k'.
      destruct (key_eqb k'' k) eqn:E2; [apply key_eqb_eq in E2; contradiction | reflexivity].
    + destruct (key_eqb k'' k'); [reflexivity | exact IH].
Qed.

Lemma try_files_result isfile read_text json_loads key cache base_dir fs :
  (forall c' d,
     try_files isfile read_text json_loads key cache base_dir fs = Ok (c', d) ->
     c' = cache_set key d cache /\
     ((exists pre fname post, fs = app pre (fname :: post) /\
         Forall (skipped isfile read_text json_loads base_dir) pre /\
         isfile (os_path_join base_dir fname) = true /\
         bind (read_text (os_path_join base_dir fname)) json_loads = Ok d) \/
      (Forall (skipped isfile read_text json_loads base_dir) fs /\ d = []))) /\
  (forall e,
     try_files isfile read_text json_loads key cache base_dir fs = Raised e ->
     is_Exception e = false /\
     exists pre fname post, fs = app pre (fname :: post) /\
       Forall (skipped isfile read_text json_loads base_dir) pre /\
       isfile (os_path_join base_dir fname) = true /\
       bind (read_text (os_path_join base_dir fname)) json_loads = Raised e).
Proof.
  induction fs as [|f fs [IHo IHr]]; simpl.
  - split; [|discriminate]. intros c' d E. inversion E; subst.
    split; [reflexivity | right; split; [constructor | reflexivity]].
  - assert (Later : forall (P : list string -> Prop),
              skipped isfile read_text json_loads base_dir f ->
              (exists pre fname post, fs = app pre (fname :: post) /\
                 Forall (skipped isfile read_text json_loads base_dir) pre /\ P [fname]) ->
              exists pre fname post, f :: fs = app pre (fname :: post) /\
                 Forall (skipped isfile read_text json_loads base_dir) pre /\ P [fname]).
    { intros P Hs (pre & g & post & E & F & Hp). exists (f :: pre), g, post.
      split; [subst fs; reflexivity|]. split; [constructor; assumption | exact Hp]. }
    destruct (isfile (os_path_join base_dir f)) eqn:Hf.
    + destruct (bind (read_text (os_path_join base_dir f)) json_loads) as [data|e0] eqn:Hb.
      * split; [|discriminate]. intros c' d E. inversion E; subst.
        split; [reflexivity|]. left. exists [], f, fs. auto.
      * destruct (is_Exception e0) eqn:He.
        -- assert (Hs : skipped isfile read_text json_loads base_dir f)
             by (right; exists e0; split; assumption).
           split.
           ++ intros c' d E. destruct (IHo c' d E) as [Hc [(pre & g & post & Ep & F & H1 & H2) | (F & Hd)]].
              ** split; [exact Hc|]. left.
                 destruct (Later (fun l => match l with
                                           | [x] => isfile (os_path_join base_dir x) = true /\
                                                    bind (read_text (os_path_join base_dir x)) json_loads = Ok d
                                           | _ => False end) Hs)
                   as (pre' & g' & post' & E' & F' & P').
                 { exists pre, g, post. auto. }
                 exists pre', g', post'. simpl in P'. tauto.
              ** split; [exact Hc|]. right. split; [constructor; assumption | exact Hd].
           ++ intros e E. destruct (IHr e E) as [Hne (pre & g & post & Ep & F & H1 & H2)].
              split; [exact Hne|].
              destruct (Later (fun l => match l with
                                        | [x] => isfile (os_path_join base_dir x) = true /\
                                                 bind (read_text (os_path_join base_dir x)) json_loads = Raised e
                                        | _ => False end) Hs)
                as (pre' & g' & post' & E' & F' & P').
              { exists pre, g, post. auto. }
              exists pre', g', post'. simpl in P'. tauto.
        -- split; [discriminate|]. intros e E. inversion E; subst.
           split; [exact He|]. exists [], f, fs. auto.
    + assert (Hs : skipped isfile read_text json_loads base_dir f) by (left; exact Hf).
      split.
      * intros c' d E. destruct (IHo c' d E) as [Hc [(pre & g & post & Ep & F & H1 & H2) | (F & Hd)]].
        -- split; [exact Hc|]. left.
           destruct (Later (fun l => match l with
                                     | [x] => isfile (os_path_join base_dir x) = true /\
                                              bind (read_text (os_path_join base_dir x)) json_loads = Ok d
                                     | _ => False end) Hs)
             as (pre' & g' & post' & E' & F' & P').
           { exists pre, g, post. auto. }
           exists pre', g', post'. simpl in P'. tauto.
        -- split; [exact Hc|]. right. split; [constructor; assumption | exact Hd].
      * intros e E. destruct (IHr e E) as [Hne (pre & g & post & Ep & F & H1 & H2)].
        split; [exact Hne|].
        destruct (Later (fun l => match l with
                                  | [x] => isfile (os_path_join base_dir x) = true /\
                                           bind (read_text (os_path_join base_dir x)) json_loads = Raised e
                                  | _ => False end) Hs)
          as (pre' & g' & post' & E' & F' & P').
        { exists pre, g, post. auto. }
        exists pre', g', post'. simpl in P'. tauto.
Qed.

(** What [load_events_by_char] returns. On a cache hit, the cached value.
    On a miss, the files are tried in order: the value is the parse of the
    first listed file that [os.path.isfile] accepts and that loads, every
    file before it being rejected by [isfile] or failing with an
    [Exception]; or [{}] when every listed file is so passed over. The
    value is cached under [(base_dir, filenames)] and every other cache key
    is left as it was. Only an exception outside [Exception] escapes: it is
    raised on a cache miss, by the first file [isfile] accepts that does
    not fail with an [Exception]. *)
Theorem load_events_by_char_result isfile read_text json_loads cache base_dir
    filenames :
  (forall c' d,
     load_events_by_char isfile read_text json_loads cache base_dir filenames = Ok (c', d) ->
     cache_get (base_dir, filenames) c' = Some d /\
     (forall k, k <> (base_dir, filenames) -> cache_get k c' = cache_get k cache) /\
     (cache_get (base_dir, filenames) cache = Some d \/
      (cache_get (base_dir, filenames) cache = None /\
       ((exists pre fname post, filenames = app pre (fname :: post) /\
           Forall (skipped isfile read_text json_loads base_dir) pre /\
           isfile (os_path_join base_dir fname) = true /\
           bind (read_text (os_path_join base_dir fname)) json_loads = Ok d) \/
        (Forall (skipped isfile read_text json_loads base_dir) filenames /\ d = []))))) /\
  (forall e,
     load_events_by_char isfile read_text json_loads cache base_dir filenames = Raised e ->
     cache_get (base_dir, filenames) cache = None /\ is_Exception e = false /\
     exists pre fname post, filenames = app pre (fname :: post) /\
       Forall (skipped isfile read_text json_loads base_dir) pre /\
       isfile (os_path_join base_dir fname) = true /\
       bind (read_text (os_path_join base_dir fname)) json_loads = Raised e).
Proof.
  unfold load_events_by_char.
  destruct (cache_get (base_dir, filenames) cache) as [d0|] eqn:Hc.
  - split; [|discriminate]. intros c' d E. inversion E; subst.
    split; [exact Hc|]. split; [reflexivity | left; reflexivity].
  - destruct (try_files_result isfile read_text json_loads (base_dir, filenames) cache
                base_dir filenames) as [O R].
    split.
    + intros c' d E. destruct (O c' d E) as [Hc' P]. subst c'.
      split; [apply cache_get_set_same|].
      split; [intros k Hk; apply cache_get_set_other, Hk|].
      right. split; [reflexivity | exact P].
    + intros e E. split; [reflexivity | exact (R e E)].
Qed.

Lemma load_events_by_char_result_witness :
  let read_text (p : string) : PyResult string :=
    if String.eqb p "events/trainee_by_character.json" then Ok "{}" else Raised FileNotFoundError in
  let json_loads (_ : string) : PyResult ByCharMap := Ok [("Oguri Cap", [])] in
  cache_get ("events", ["trainee_events_by_character.json"; "trainee_by_character.json"])
    [(("events", ["trainee_events_by_character.json"; "trainee_by_character.json"]),
      [("Oguri Cap", [])])]
  = Some [("Oguri Cap", [])].
Proof.
  cbv zeta.
  exact (proj1 (proj1 (load_events_by_char_result
    (fun p => String.eqb p "events/trainee_by_character.json")
    (fun p => if String.eqb p "events/trainee_by_character.json" then Ok "{}"
              else Raised FileNotFoundError)
    (fun _ => Ok [("Oguri Cap", [])]) [] "events"
    ["trainee_events_by_character.json"; "trainee_by_character.json"])
    _ _ eq_refl)).
Defined.

(** Per [(base_dir, filenames)], the first answer is final: once a call has
    returned, a later call with the same arguments returns the same value
    and leaves the cache as it is, whatever the files on disk are then. In
    particular the [{}] cached while no file could be loaded is kept after
    the file appears. *)
Theorem load_events_by_char_cached isfile read_text json_loads cache base_dir
    filenames c' d isfile' read_text' json_loads' :
  load_events_by_char isfile read_text json_loads cache base_dir filenames = Ok (c', d) ->
  load_events_by_char isfile' read_text' json_loads' c' base_dir filenames = Ok (c', d).
Proof.
  intro E.
  destruct (proj1 (load_events_by_char_result isfile read_text json_loads cache
                     base_dir filenames) c' d E) as [Hg _].
  unfold load_events_by_char. rewrite Hg. reflexivity.
Qed.

Lemma load_events_by_char_cached_witness :
  let fs := ["trainee_events_by_character.json"; "trainee_by_character.json"] in
  load_events_by_char (fun _ => true) (fun _ => Ok "{}")
    (fun _ => Ok [("Oguri Cap", [])])
    [(("events", fs), [])] "events" fs
  = Ok ([(("events", fs), [])], []).
Proof.
  cbv zeta.
  apply (load_events_by_char_cached (fun _ => false) (fun _ => Raised FileNotFoundError)
           (fun _ => Ok []) [] "events"). reflexivity.
Defined.

End ByCharFacts.

(** ** The portrait store *)

Module PortraitFacts.
Import Portraits PortraitClaims TrimFacts.

Lemma dict_get_set {A} (k k' : string) (v : A) d :
  dict_get k (dict_set k' v d) = if String.eqb k k' then Some v else dict_get k d.
Proof.
  induction d as [|[k0 v0] d IH]; simpl; [destruct (String.eqb k k'); reflexivity|].
  destruct (String.eqb_spec k' k0) as [E|N]; simpl.
  - subst k0. destruct (String.eqb k k'); reflexivity.
  - rewrite IH. destruct (String.eqb_spec k k0) as [E0|N0];
      destruct (String.eqb_spec k k') as [E1|N1]; congruence.
Qed.

Lemma dict_set_nonempty {A} (k : string) (v : A) d : dict_set k v d <> [].
Proof. destruct d as [|[k0 v0] d]; simpl; [discriminate|]. destruct (String.eqb k k0); discriminate. Qed.

Section Store.
Variables PilImage Gray : Type.
Variable rgb2gray : PilImage -> Gray.
Variable imread_gray : PilImage -> option Gray.
Variable equalize_hist : Gray -> Gray.
Variable match_max : Gray -> Gray -> Q.

(** A file the scan keeps: an image extension and a readable image. *)
Let scan_step (loaded : list (string * Gray)) (e : string * PilImage) :=
  let '(fname, img) := e in
  let '(name, ext) := splitext fname in
  if negb (existsb (String.eqb (Py.lower ext)) IMAGE_EXTS) then loaded
  else match imread_gray img with
       | Some g => dict_set name g loaded
       | None => loaded
       end.

Lemma scan_fold_from es acc k g :
  dict_get k (fold_left scan_step es acc) = Some g ->
  dict_get k acc = Some g \/
  exists fname img ext, In (fname, img) es /\ splitext fname = (k, ext) /\
    existsb (String.eqb (Py.lower ext)) IMAGE_EXTS = true /\ imread_gray img = Some g.
Proof.
  revert acc. induction es as [|[fname img] es IH]; intros acc H; cbn [fold_left] in H;
    [left; exact H|].
  destruct (IH _ H) as [H1 | (f & i & x & Hi & R)];
    [|right; exists f, i, x; split; [right; exact Hi | exact R]].
  unfold scan_step in H1. cbv beta iota in H1. destruct (splitext fname) as [name ext] eqn:Hs.
  destruct (existsb (String.eqb (Py.lower ext)) IMAGE_EXTS) eqn:Hx; cbn [negb] in H1;
    [|left; exact H1].
  destruct (imread_gray img) as [g0|] eqn:Hr; [|left; exact H1].
  rewrite dict_get_set in H1. destruct (String.eqb_spec k name) as [E|N].
  - subst name. inversion H1; subst g0. right. exists fname, img, ext.
    split; [left; reflexivity | auto].
  - left. exact H1.
Qed.

Lemma scan_fold_keeps es acc k :
  dict_get k acc <> None -> dict_get k (fold_left scan_step es acc) <> None.
Proof.
  revert acc. induction es as [|e es IH]; intros acc H; simpl; [exact H|].
  apply IH. unfold scan_step. destruct e as [fname img].
  destruct (splitext fname) as [name ext].
  destruct (negb _); [exact H|]. destruct (imread_gray img); [|exact H].
  rewrite dict_get_set. destruct (String.eqb k name); [discriminate | exact H].
Qed.

Lemma scan_fold_has es acc fname img k ext :
  In (fname, img) es -> splitext fname = (k, ext) ->
  existsb (String.eqb (Py.lower ext)) IMAGE_EXTS = true -> imread_gray img <> None ->
  dict_get k (fold_left scan_step es acc) <> None.
Proof.
  intros Hi Hs Hx Hr. revert acc. induction es as [|e es IH]; intro acc; [destruct Hi|].
  destruct Hi as [E|Hi]; simpl; [|apply IH, Hi].
  subst e. apply scan_fold_keeps. unfold scan_step. rewrite Hs, Hx. simpl.
  destruct (imread_gray img) as [g|]; [|contradiction].
  rewrite dict_get_set, String.eqb_refl. discriminate.
Qed.

(** After [load_portraits] the cache holds exactly the stems of the files
    of the directory with a .png, .jpg or .jpeg extension (in any case)
    that OpenCV can read, each mapped to the image read from such a file;
    nothing of the previous cache survives, the returned dict is the new
    cache, and the directory exists. *)
Theorem load_portraits_keys (st : Store PilImage Gray) :
  let '(st', loaded) := load_portraits imread_gray st in
  portrait_templates st' = loaded /\ dir_exists (disk st') = true /\
  entries (disk st') = entries (disk st) /\
  (forall k g, dict_get k loaded = Some g ->
     exists fname img ext, In (fname, img) (entries (disk st)) /\
       splitext fname = (k, ext) /\
       existsb (String.eqb (Py.lower ext)) IMAGE_EXTS = true /\
       imread_gray img = Some g) /\
  (forall fname img k ext, In (fname, img) (entries (disk st)) ->
     splitext fname = (k, ext) ->
     existsb (String.eqb (Py.lower ext)) IMAGE_EXTS = true ->
     imread_gray img <> None ->
     dict_get k loaded <> None).
Proof.
  unfold load_portraits, ensure_dirs, scan. simpl.
  split; [reflexivity|]. split; [reflexivity|]. split; [reflexivity|]. split.
  - intros k g H. destruct (scan_fold_from _ [] k g H) as [E|R]; [discriminate | exact R].
  - intros fname img k ext Hi Hs Hx Hr. exact (scan_fold_has _ [] fname img k ext Hi Hs Hx Hr).
Qed.



Lemma dict_get_in {A} (k : string) (v : A) d : dict_get k d = Some v -> In (k, v) d.
Proof.
  induction d as [|[k0 v0] d IH]; simpl; [discriminate|].
  destruct (String.eqb_spec k k0) as [E|N]; intro H; [inversion H; subst; left; reflexivity|].
  right. apply IH, H.
Qed.

(** A saved portrait is used at once and survives a reload: after
    [save_portrait] returns a path, [detect_from_roi] scores the new
    template under the key [safe] without reloading from disk; and, when
    [safe] holds a character other than a dot and OpenCV reads the written
    image back, [load_portraits] still caches a template under [safe]. *)
Theorem saved_portrait_used (st : Store PilImage Gray) name img portrait_dir st' path :
  save_portrait rgb2gray st name img portrait_dir = (st', Some path) ->
  (forall roi min_score st'' steps r,
     detect_from_roi rgb2gray imread_gray equalize_hist match_max st' roi min_score
       = (st'', steps, r) ->
     st'' = st' /\ ~ In Reload steps /\ In (Scored (sanitize name)) steps) /\
  (existsb (fun c => negb (Ascii.eqb c "."%char)) (list_ascii_of_string (sanitize name))
     = true ->
   imread_gray img <> None ->
   dict_get (sanitize name) (portrait_templates (fst (load_portraits imread_gray st')))
     <> None).
Proof.
  unfold save_portrait. destruct (String.eqb (sanitize name) "") eqn:Es; [discriminate|].
  intro H. inversion H; subst st' path. clear H. split.
  - intros roi min_score st'' steps r D. unfold detect_from_roi in D. cbn [portrait_templates] in D.
    destruct (dict_set (sanitize name) (rgb2gray img) (portrait_templates st))
      as [|q ts] eqn:Ed; [exfalso; apply (dict_set_nonempty (sanitize name) (rgb2gray img) _ Ed)|].
    cbn [portrait_templates] in D.
    destruct (best_of match_max _ (q :: ts)) as [bn bs].
    inversion D; subst. split; [reflexivity|]. split.
    + cbn [app]. intro I.
      apply (proj1 (in_map_iff (fun '(name, _) => Scored name) (q :: ts) Reload)) in I.
      destruct I as [[n t] [E _]]. discriminate.
    + cbn [app]. apply (proj2 (in_map_iff (fun '(name, _) => Scored name) (q :: ts) _)). exists (sanitize name, rgb2gray img). split; [reflexivity|].
      rewrite <- Ed. apply dict_get_in. rewrite dict_get_set, String.eqb_refl. reflexivity.
  - intros Hd Hr. unfold load_portraits, scan. simpl.
    apply (scan_fold_has _ [] (sanitize name ++ ".png") img (sanitize name) ".png").
    + apply dict_get_in. rewrite dict_get_set, String.eqb_refl. reflexivity.
    + apply splitext_png, Hd.
    + reflexivity.
    + exact Hr.
Qed.

End Store.

Lemma load_portraits_keys_witness :
  let st : Store nat nat :=
    mkStore (mkDisk false [("Alpha.PNG", 1%nat); ("notes.txt", 2%nat); ("Beta.jpg", 3%nat)])
            [("Gone", 9%nat)] in
  portrait_templates (fst (load_portraits (fun n => Some n) st))
  = [("Alpha", 1%nat); ("Beta", 3%nat)] /\
  dict_get "Alpha" (snd (load_portraits (fun n => Some n) st)) <> None.
Proof.
  cbv zeta. split; [reflexivity|].
  pose proof (load_portraits_keys nat nat (fun n => Some n)
    (mkStore (mkDisk false [("Alpha.PNG", 1%nat); ("notes.txt", 2%nat); ("Beta.jpg", 3%nat)])
             [("Gone", 9%nat)])) as K.
  destruct (load_portraits _ _) as [st' loaded] eqn:E. simpl.
  destruct K as (_ & _ & _ & _ & K).
  apply (K "Alpha.PNG" 1%nat "Alpha" ".PNG").
  - left. reflexivity.
  - reflexivity.
  - reflexivity.
  - discriminate.
Defined.


Lemma saved_portrait_used_witness :
  let st : Store nat nat := mkStore (mkDisk false [("Alpha.png", 1%nat)]) [] in
  let mm (a b : nat) : Q := if Nat.eqb a b then 9#10 else 1#10 in
  save_portrait (fun n => n) st " Beta " 2%nat "assets/portraits"
    = (mkStore (mkDisk true [("Alpha.png", 1%nat); ("Beta.png", 2%nat)]) [("Beta", 2%nat)],
       Some "assets/portraits/Beta.png") /\
  In (Scored "Beta")
    (snd (fst (detect_from_roi (fun n => n) (fun n => Some n) (fun n => n) mm
       (mkStore (mkDisk true [("Alpha.png", 1%nat); ("Beta.png", 2%nat)]) [("Beta", 2%nat)])
       2%nat (7#10)))).
Proof.
  cbv zeta.
  assert (E : save_portrait (fun n => n) (mkStore (mkDisk false [("Alpha.png", 1%nat)]) [])
                " Beta " 2%nat "assets/portraits"
    = (mkStore (mkDisk true [("Alpha.png", 1%nat); ("Beta.png", 2%nat)]) [("Beta", 2%nat)],
       Some "assets/portraits/Beta.png")) by reflexivity.
  split; [exact E|].
  destruct (saved_portrait_used nat nat (fun n => n) (fun n => Some n) (fun n => n)
              (fun a b => if Nat.eqb a b then 9#10 else 1#10) _ _ _ _ _ _ E) as [D _].
  destruct (detect_from_roi _ _ _ _ _ 2%nat (7#10)) as [[st'' steps] r] eqn:Ed.
  exact (proj2 (proj2 (D _ _ _ _ _ Ed))).
Defined.

Lemma list_ascii_app (a b : string) :
  list_ascii_of_string (a ++ b) = app (list_ascii_of_string a) (list_ascii_of_string b).
Proof. induction a as [|c a IH]; simpl; [reflexivity | rewrite IH; reflexivity]. Qed.

Lemma lstrip_suffix (s : string) : exists pre, s = pre ++ Py.lstrip s.
Proof.
  induction s as [|c s [pre IH]]; simpl; [exists ""; reflexivity|].
  destruct (Py.isspace c); [exists (String c pre); simpl; rewrite <- IH; reflexivity|].
  exists ""; reflexivity.
Qed.

Lemma lstrip_head (s t : string) c : Py.lstrip s = String c t -> Py.isspace c = false.
Proof.
  induction s as [|d s IH]; simpl; [discriminate|].
  destruct (Py.isspace d) eqn:Hd; [exact IH | intro E; inversion E; subst; exact Hd].
Qed.

Lemma strip_chars (s : string) c :
  In c (list_ascii_of_string (Py.strip s)) -> In c (list_ascii_of_string s).
Proof.
  unfold Py.strip. intro H.
  destruct (rstrip_prefix (Py.lstrip s)) as [r Er].
  destruct (lstrip_suffix s) as [pre Ep].
  rewrite Ep, list_ascii_app. apply in_or_app. right.
  rewrite Er, list_ascii_app. apply in_or_app. left. exact H.
Qed.

Lemma strip_head (s t : string) c : Py.strip s = String c t -> Py.isspace c = false.
Proof.
  unfold Py.strip. intro H.
  destruct (rstrip_prefix (Py.lstrip s)) as [r Er]. rewrite H in Er.
  apply (lstrip_head s (t ++ r)). exact Er.
Qed.

Lemma strip_noop (x : string) :
  (forall c t, x = String c t -> Py.isspace c = false) ->
  (forall pre c, x = pre ++ String c "" -> Py.isspace c = false) ->
  Py.strip x = x.
Proof.
  intros Hh Ht. unfold Py.strip.
  assert (L : Py.lstrip x = x).
  { destruct x as [|c t]; simpl; [reflexivity|]. rewrite (Hh c t eq_refl). reflexivity. }
  rewrite L. apply rstrip_noop, Ht.
Qed.

Lemma keep_allowed_chars (s : string) c :
  In c (list_ascii_of_string (keep_allowed s)) -> ~ In c FORBIDDEN.
Proof.
  unfold keep_allowed. rewrite list_ascii_of_string_of_list_ascii.
  intros H F. apply filter_In in H. destruct H as [_ H].
  apply negb_true_iff in H.
  assert (T : existsb (Ascii.eqb c) FORBIDDEN = true).
  { apply existsb_exists. exists c. split; [exact F | apply Ascii.eqb_refl]. }
  congruence.
Qed.

Lemma filter_all_true {A} (f : A -> bool) l :
  (forall x, In x l -> f x = true) -> filter f l = l.
Proof.
  induction l as [|x l IH]; intro H; simpl; [reflexivity|].
  rewrite (H x (or_introl eq_refl)), IH; [reflexivity|].
  intros y Hy. apply H. right. exact Hy.
Qed.

Lemma keep_allowed_noop (s : string) :
  (forall c, In c (list_ascii_of_string s) -> ~ In c FORBIDDEN) -> keep_allowed s = s.
Proof.
  intro H. unfold keep_allowed. rewrite filter_all_true; [apply string_of_list_ascii_of_string|].
  intros c Hc. apply negb_true_iff.
  destruct (existsb (Ascii.eqb c) FORBIDDEN) eqn:E; [|reflexivity].
  apply existsb_exists in E. destruct E as [d [Hd Ed]]. apply Ascii.eqb_eq in Ed. subst d.
  exfalso. apply (H c Hc Hd).
Qed.

(** The stem [save_portrait] derives from a name ([safe]) holds none of
    the characters backslash, slash, colon, star, question mark, double
    quote, less-than, greater-than and bar, starts and ends with no
    whitespace, and is its own stem: sanitizing it again changes nothing. *)
Theorem sanitize_spec (name : string) :
  (forall c, In c (list_ascii_of_string (sanitize name)) -> ~ In c FORBIDDEN) /\
  (forall c t, sanitize name = String c t -> Py.isspace c = false) /\
  (forall pre c, sanitize name = pre ++ String c "" -> Py.isspace c = false) /\
  sanitize (sanitize name) = sanitize name.
Proof.
  assert (NF : forall c, In c (list_ascii_of_string (sanitize name)) -> ~ In c FORBIDDEN).
  { intros c H. apply (keep_allowed_chars (Py.strip name)). apply strip_chars, H. }
  assert (HH : forall c t, sanitize name = String c t -> Py.isspace c = false).
  { intros c t. apply strip_head. }
  assert (HT : forall pre c, sanitize name = pre ++ String c "" -> Py.isspace c = false).
  { intros pre c. unfold sanitize, Py.strip. apply rstrip_last. }
  split; [exact NF|]. split; [exact HH|]. split; [exact HT|].
  unfold sanitize at 1. rewrite (strip_noop _ HH HT), (keep_allowed_noop _ NF).
  apply strip_noop; assumption.
Qed.

(** A name with padding and forbidden characters: its stem is clean. *)
Lemma sanitize_spec_witness :
  sanitize " Al:ph?a " = "Alpha" /\
  sanitize (sanitize " Al:ph?a ") = sanitize " Al:ph?a ".
Proof. split; [vm_compute; reflexivity | apply (sanitize_spec " Al:ph?a ")]. Defined.

End PortraitFacts.

(** ** The OCR lines and the overlay of [read_once] *)

Module OverlayFacts.
Import Events Overlay TrimFacts.

Lemma chars_of_rev (l : list ascii) c :
  In c (list_ascii_of_string (string_of_list_ascii (rev l))) <-> In c l.
Proof. rewrite list_ascii_of_string_of_list_ascii. split; [apply in_rev | apply in_rev]. Qed.

Lemma splitlines_go_nobreak : forall cur s,
  (forall c, In c cur -> is_line_break c = false) ->
  forall ln, In ln (splitlines_go cur s) ->
  forall c, In c (list_ascii_of_string ln) -> is_line_break c = false.
Proof.
  fix IH 2. intros cur s Hc ln Hln c Hin. destruct s as [|d t]; simpl in Hln.
  - destruct cur as [|a cur']; [destruct Hln|].
    destruct Hln as [E|[]]. subst ln. apply (proj1 (chars_of_rev _ _)) in Hin. apply Hc, Hin.
  - destruct (is_line_break d) eqn:Hd.
    + destruct Hln as [E|Hln].
      * subst ln. apply (proj1 (chars_of_rev _ _)) in Hin. apply Hc, Hin.
      * assert (N : forall c, In c [] -> is_line_break c = false) by (intros ? []).
        destruct (Nat.eqb (nat_of_ascii d) 13).
        -- destruct t as [|e t'] eqn:Et.
           ++ destruct Hln.
           ++ destruct (Nat.eqb (nat_of_ascii e) 10).
              ** exact (IH [] t' N ln Hln c Hin).
              ** rewrite <- Et in Hln. exact (IH [] t N ln Hln c Hin).
        -- exact (IH [] t N ln Hln c Hin).
    + refine (IH (d :: cur) t _ ln Hln c Hin).
      intros a [E|Ha]; [subst a; exact Hd | apply Hc, Ha].
Qed.

Lemma rstrip_char_prefix x (s : string) : exists r, s = rstrip_char x s ++ r.
Proof.
  induction s as [|c s [r IH]]; simpl; [exists ""; reflexivity|].
  destruct (rstrip_char x s) as [|c' s'] eqn:E.
  - destruct (Ascii.eqb c x); [exists (String c s); reflexivity|].
    exists r. simpl. rewrite IH. reflexivity.
  - exists r. simpl. rewrite IH. reflexivity.
Qed.

Lemma normalize_spaces_id (s : string) : normalize_spaces s = s.
Proof.
  unfold normalize_spaces, is_Zs.
  rewrite map_ext_in with (g := fun c => c).
  - rewrite map_id. apply string_of_list_ascii_of_string.
  - intros c _. destruct (Ascii.eqb_spec c " "%char) as [E|N]; [subst c; reflexivity|].
    reflexivity.
Qed.

Lemma clean_chars (ln : string) c :
  In c (list_ascii_of_string
          (normalize_spaces (rstrip_char "013"%char (remove_char "|"%char ln)))) ->
  In c (list_ascii_of_string ln) /\ c <> "|"%char.
Proof.
  rewrite normalize_spaces_id. intro H.
  destruct (rstrip_char_prefix "013"%char (remove_char "|"%char ln)) as [r E].
  assert (H2 : In c (list_ascii_of_string (remove_char "|"%char ln))).
  { rewrite E, PortraitFacts.list_ascii_app. apply in_or_app. left. exact H. }
  unfold remove_char in H2. rewrite list_ascii_of_string_of_list_ascii in H2.
  apply filter_In in H2. destruct H2 as [H2 Hb]. split; [exact H2|].
  intro C. subst c. discriminate.
Qed.

(** Every line [read_once] takes from the Tesseract output holds a
    non-whitespace character, no bar and no line boundary. *)
Theorem ocr_lines_clean (raw : string) ln :
  In ln (ocr_lines raw) ->
  Py.strip ln <> "" /\
  (forall c, In c (list_ascii_of_string ln) -> c <> "|"%char /\ is_line_break c = false).
Proof.
  unfold ocr_lines. intro H. apply filter_In in H. destruct H as [H Hs].
  split; [intro E; rewrite E in Hs; discriminate|].
  apply in_map_iff in H. destruct H as [l0 [E Hl0]]. subst ln.
  intros c Hc. destruct (clean_chars l0 c Hc) as [H1 H2]. split; [exact H2|].
  refine (splitlines_go_nobreak [] raw _ l0 Hl0 c H1). intros ? [].
Qed.

Lemma ocr_lines_clean_witness :
  let raw := ("Trainee Event |" ++ String "010" (String "010"
               ("  " ++ String "010" ("Tracen | Lunch" ++ String "013" "")))) in
  ocr_lines raw = ["Trainee Event "; "Tracen  Lunch"] /\ Py.strip "Tracen  Lunch" <> "".
Proof.
  cbv zeta.
  assert (E : ocr_lines ("Trainee Event |" ++ String "010" (String "010"
               ("  " ++ String "010" ("Tracen | Lunch" ++ String "013" ""))))
              = ["Trainee Event "; "Tracen  Lunch"]) by (vm_compute; reflexivity).
  split; [exact E|].
  refine (proj1 (ocr_lines_clean _ "Tracen  Lunch" _)).
  rewrite E. right. left. reflexivity.
Defined.

Lemma string_of_list_snoc (l : list ascii) c :
  string_of_list_ascii (app l [c]) = string_of_list_ascii l ++ String c "".
Proof. induction l as [|a l IH]; simpl; [reflexivity | rewrite IH; reflexivity]. Qed.

Lemma str_app_nil (s : string) : s ++ "" = s.
Proof. induction s as [|c s IH]; simpl; [reflexivity | rewrite IH; reflexivity]. Qed.

Lemma split_nl_go_nonempty cur (s : string) : split_nl_go cur s <> [].
Proof. revert cur. induction s as [|c t IH]; intro cur; simpl; [discriminate|].
  destruct (Ascii.eqb c "010"%char); [discriminate | apply IH]. Qed.

Lemma concat_cons2 sep x l :
  l <> [] -> String.concat sep (x :: l) = x ++ sep ++ String.concat sep l.
Proof. destruct l; [congruence | reflexivity]. Qed.

Lemma join_split_nl_go cur (s : string) :
  String.concat (String "010" "") (split_nl_go cur s) = string_of_list_ascii (rev cur) ++ s.
Proof.
  revert cur. induction s as [|c t IH]; intro cur; simpl.
  - rewrite str_app_nil. reflexivity.
  - destruct (Ascii.eqb_spec c "010"%char) as [E|N].
    + subst c. rewrite concat_cons2 by apply split_nl_go_nonempty. rewrite IH. reflexivity.
    + rewrite IH. simpl. rewrite string_of_list_snoc, str_app_assoc. reflexivity.
Qed.

Lemma concat_prefix sep p x l :
  String.concat sep ((p ++ x) :: l) = p ++ String.concat sep (x :: l).
Proof. destruct l; [reflexivity | simpl; apply str_app_assoc]. Qed.

Lemma concat_app sep l1 l2 :
  l1 <> [] -> l2 <> [] ->
  String.concat sep (app l1 l2) = String.concat sep l1 ++ sep ++ String.concat sep l2.
Proof.
  intros H1 H2. induction l1 as [|x l1 IH]; [congruence|].
  destruct l1 as [|y l1].
  - simpl app. apply concat_cons2, H2.
  - change (app (x :: y :: l1) l2) with (x :: app (y :: l1) l2).
    rewrite concat_cons2 by discriminate. rewrite IH by discriminate.
    rewrite (concat_cons2 sep x (y :: l1)) by discriminate.
    rewrite !str_app_assoc. reflexivity.
Qed.

Lemma option_block_join (oe : string * string) :
  option_block oe <> [] /\
  String.concat (String "010" "") (option_block oe) = fst oe ++ ": " ++ snd oe.
Proof.
  destruct oe as [o e]. unfold option_block, split_nl. simpl.
  pose proof (join_split_nl_go [] e) as J. simpl in J.
  destruct (split_nl_go [] e) as [|first extra] eqn:E;
    [exfalso; apply (split_nl_go_nonempty [] e E)|].
  split; [discriminate|]. rewrite (concat_prefix _ o (": " ++ first)).
  rewrite (concat_prefix _ ": " first), J. reflexivity.
Qed.

Lemma concat_blocks (opts : EventOptions) :
  (List.concat (map option_block opts) = [] <-> opts = []) /\
  String.concat (String "010" "") (List.concat (map option_block opts))
  = String.concat (String "010" "") (map (fun '(o, e) => o ++ ": " ++ e) opts).
Proof.
  induction opts as [|oe rest [IHe IH]]; [split; [split; reflexivity | reflexivity]|].
  destruct (option_block_join oe) as [Hne Hj].
  simpl. split.
  - split; [intro E; apply app_eq_nil in E; destruct E; contradiction | discriminate].
  - destruct rest as [|oe' rest'].
    + simpl. rewrite app_nil_r, Hj. destruct oe; reflexivity.
    + assert (N : List.concat (map option_block (oe' :: rest')) <> [])
        by (intro E; apply IHe in E; discriminate).
      rewrite concat_app by assumption. rewrite Hj, IH.
      destruct oe as [o e]. simpl. reflexivity.
Qed.

Lemma split_nl_go_length cur (s : string) :
  List.length (split_nl_go cur s) = S (count_occ ascii_dec (list_ascii_of_string s) "010"%char).
Proof.
  revert cur. induction s as [|c t IH]; intro cur; simpl; [reflexivity|].
  destruct (Ascii.eqb_spec c "010"%char) as [E|N].
  - subst c. simpl. rewrite IH.
    destruct (ascii_dec "010"%char "010"%char) as [_|N]; [reflexivity | congruence].
  - rewrite IH. destruct (ascii_dec c "010"%char) as [E|_]; [congruence | reflexivity].
Qed.

Lemma split_nl_go_no_nl cur (s : string) :
  ~ In "010"%char cur ->
  Forall (fun l => ~ In "010"%char (list_ascii_of_string l)) (split_nl_go cur s).
Proof.
  revert cur. induction s as [|c t IH]; intros cur Hc; simpl.
  - constructor; [|constructor]. intro C. apply (proj1 (chars_of_rev _ _)) in C. exact (Hc C).
  - destruct (Ascii.eqb_spec c "010"%char) as [E|N].
    + constructor; [|apply IH; intros []].
      intro C. apply (proj1 (chars_of_rev _ _)) in C. exact (Hc C).
    + apply IH. intros [E|C]; [congruence | exact (Hc C)].
Qed.

Lemma option_block_spec (o e : string) :
  let b := option_block (o, e) in
  String.concat (String "010" "") b = o ++ ": " ++ e /\
  List.length b = S (count_occ ascii_dec (list_ascii_of_string e) "010"%char) /\
  (exists first, hd_error b = Some (o ++ ": " ++ first) /\
                 ~ In "010"%char (list_ascii_of_string first)) /\
  Forall (fun l => ~ In "010"%char (list_ascii_of_string l)) (tl b).
Proof.
  intro b. destruct (option_block_join (o, e)) as [_ J].
  split; [exact J|]. unfold b, option_block, split_nl.
  pose proof (split_nl_go_length [] e) as L.
  pose proof (split_nl_go_no_nl [] e (fun C => C)) as F.
  pose proof (split_nl_go_nonempty [] e) as NE.
  destruct (split_nl_go [] e) as [|first extra]; [congruence|].
  inversion F as [|x y Hf Hx]; subst.
  split; [exact L|]. split; [exists first; split; [reflexivity | exact Hf] | exact Hx].
Qed.

(** The overlay lines are the event name followed by one block of lines
    per option, in the options' order. The block of [(option, effect)]
    joined with newlines is ["<option>: <effect>"]; it has one line more
    than the effect has newlines; its first line is
    ["<option>: <first line of the effect>"] and no line of it holds a
    newline outside the option label. So an effect of several lines spans
    as many overlay lines, and the overlay shows it verbatim. *)
Theorem overlay_lines_text (event_name : string) (event_options : EventOptions) :
  exists blocks,
    overlay_lines event_name event_options = event_name :: List.concat blocks /\
    Forall2 (fun b (oe : string * string) =>
      String.concat (String "010" "") b = fst oe ++ ": " ++ snd oe /\
      List.length b = S (count_occ ascii_dec (list_ascii_of_string (snd oe)) "010"%char) /\
      (exists first, hd_error b = Some (fst oe ++ ": " ++ first) /\
                     ~ In "010"%char (list_ascii_of_string first)) /\
      Forall (fun l => ~ In "010"%char (list_ascii_of_string l)) (tl b))
      blocks event_options.
Proof.
  exists (map option_block event_options). split; [reflexivity|].
  induction event_options as [|[o e] rest IH]; simpl; constructor; [|exact IH].
  exact (option_block_spec o e).
Qed.

Lemma prefix_lower (k l : string) : prefix k l = true -> prefix (Py.lower k) (Py.lower l) = true.
Proof.
  revert l. induction k as [|a k IH]; intros l H; [destruct (Py.lower l); reflexivity|].
  destruct l as [|b l]; [discriminate|]. simpl in H |- *.
  destruct (ascii_dec a b) as [E|N]; [|discriminate]. subst b.
  destruct (ascii_dec (Py.lower_char a) (Py.lower_char a)) as [_|N]; [apply IH, H | congruence].
Qed.

Lemma contains_lower (k l : string) :
  Py.contains k l = true -> Py.contains (Py.lower k) (Py.lower l) = true.
Proof.
  induction l as [|b l IH]; intro H; simpl in H |- *.
  - destruct k; [reflexivity | discriminate].
  - apply orb_true_iff in H. apply orb_true_iff. destruct H as [H|H].
    + left. exact (prefix_lower k (String b l) H).
    + right. apply IH, H.
Qed.

Lemma matched_skills_spec {D} (lines : list string) (parsed_skills : list (string * D)) :
  (forall k d, In (k, d) (matched_skills lines parsed_skills) ->
     In (k, d) parsed_skills /\
     exists line, In line lines /\ Py.contains (Py.lower k) (Py.lower line) = true) /\
  (forall k d line, In (k, d) parsed_skills -> In line lines ->
     Py.contains k line = true -> In (k, d) (matched_skills lines parsed_skills)).
Proof.
  unfold matched_skills. split.
  - intros k d H. apply in_flat_map in H. destruct H as [line [Hl Hk]].
    apply filter_In in Hk. destruct Hk as [Hk Hc].
    split; [exact Hk | exists line; split; assumption].
  - intros k d line Hk Hl Hc. apply in_flat_map. exists line. split; [exact Hl|].
    apply filter_In. split; [exact Hk | apply contains_lower, Hc].
Qed.

(** The overlay is shown exactly when the match has a non-empty event name
    and a non-empty option map (an event with no options is matched but
    hidden). The skills shown are skills of [parsed_skills] whose name
    occurs, ignoring case, in some overlay line; every skill whose name
    occurs verbatim in an overlay line is shown. *)
Theorem display_spec {D} (found : option string * option EventOptions)
    (parsed_skills : list (string * D)) :
  (display found parsed_skills <> HideAll <->
   exists n opts, found = (Some n, Some opts) /\ n <> "" /\ opts <> []) /\
  (forall n opts lines skills,
     found = (Some n, Some opts) ->
     display found parsed_skills = ShowOverlay lines skills ->
     lines = overlay_lines n opts /\
     (forall k d, In (k, d) skills ->
        In (k, d) parsed_skills /\
        exists line, In line lines /\ Py.contains (Py.lower k) (Py.lower line) = true) /\
     (forall k d line, In (k, d) parsed_skills -> In line lines ->
        Py.contains k line = true -> In (k, d) skills)).
Proof.
  split.
  - destruct found as [[n|] [opts|]]; simpl;
      try (split; [intro C; exfalso; apply C; reflexivity
                  | intros (n' & o' & E & _); discriminate]).
    destruct n as [|c n], opts as [|oe opts]; simpl.
    + split; [intro C; exfalso; apply C; reflexivity | intros (n' & o' & E & H & _); inversion E; congruence].
    + split; [intro C; exfalso; apply C; reflexivity | intros (n' & o' & E & H & _); inversion E; congruence].
    + split; [intro C; exfalso; apply C; reflexivity | intros (n' & o' & E & _ & H); inversion E; congruence].
    + split; [intros _; exists (String c n), (oe :: opts); split; [reflexivity|];
              split; discriminate | intros _; discriminate].
  - intros n opts lines skills Ef Hd. subst found. unfold display in Hd.
    destruct (Py.truthy (Some n)), opts as [|oe opts']; try discriminate.
    assert (Hl : lines = overlay_lines n (oe :: opts') /\
                 skills = matched_skills (overlay_lines n (oe :: opts')) parsed_skills)
      by (injection Hd; auto).
    destruct Hl as [-> ->]. split; [reflexivity|]. apply matched_skills_spec.
Qed.

Lemma display_spec_witness :
  let found := (Some "Tracen Lunch", Some [("Top", "Speed +10 Concentration")]) in
  display found [("concentration", 1%nat); ("Speed", 2%nat); ("Guts", 3%nat)]
  = ShowOverlay ["Tracen Lunch"; "Top: Speed +10 Concentration"]
      [("concentration", 1%nat); ("Speed", 2%nat)] /\
  In ("Speed", 2%nat) [("concentration", 1%nat); ("Speed", 2%nat)].
Proof.
  cbv zeta.
  assert (E : display (Some "Tracen Lunch", Some [("Top", "Speed +10 Concentration")])
    [("concentration", 1%nat); ("Speed", 2%nat); ("Guts", 3%nat)]
    = ShowOverlay ["Tracen Lunch"; "Top: Speed +10 Concentration"]
        [("concentration", 1%nat); ("Speed", 2%nat)]) by reflexivity.
  split; [exact E|].
  destruct (proj2 (display_spec _ _) _ _ _ _ eq_refl E) as (_ & _ & H).
  apply (H "Speed" 2%nat "Top: Speed +10 Concentration").
  - right. left. reflexivity.
  - right. left. reflexivity.
  - reflexivity.
Defined.

End OverlayFacts.
